(** * Autopilot enforcement: phase state machine, signal detector, stop decision

    A shallow embedding of [src/hooks/autopilot/signals.ts] and
    [src/hooks/autopilot/enforcement.ts].

    - Persisted enforcement records live in a directory-keyed store
      ([gmap string AutopilotState]).
    - Transcript artifacts live in a read-only file map; an entry is either
      readable text or a file whose read raises.
    - [checkAutopilot] threads the store through a small state monad, and
      journals every call it makes to an operation that mutates persisted
      state.
    - Node's [os.homedir], [path.join], [process.cwd], the prompt-composition
      service and the compound transition operations are collaborators of the
      controller; they are gathered in the [Host] record. *)

From stdpp Require Import gmap strings list fin_maps pretty.
From Stdlib Require Import ZArith String Ascii Permutation QArith.

Open Scope Z_scope.
Open Scope string_scope.
Open Scope list_scope.

(** ** Data model *)

(** types.ts: [AutopilotPhase]. *)
Inductive AutopilotPhase :=
  | expansion | planning | execution | qa | validation | complete | failed.

#[global] Instance AutopilotPhase_eq_dec : EqDecision AutopilotPhase.
Proof. solve_decision. Defined.

(** types.ts: [AutopilotSignal], the keys of [SIGNAL_PATTERNS]. *)
Inductive AutopilotSignal :=
  | EXPANSION_COMPLETE | PLANNING_COMPLETE | EXECUTION_COMPLETE | QA_COMPLETE
  | VALIDATION_COMPLETE | AUTOPILOT_COMPLETE | TRANSITION_TO_QA
  | TRANSITION_TO_VALIDATION.

#[global] Instance AutopilotSignal_eq_dec : EqDecision AutopilotSignal.
Proof. solve_decision. Defined.

(** The string a phase value is at run time (phases are string literals). *)
Definition phase_name (p : AutopilotPhase) : string :=
  match p with
  | expansion => "expansion" | planning => "planning"
  | execution => "execution" | qa => "qa" | validation => "validation"
  | complete => "complete" | failed => "failed"
  end.

(** JavaScript truthiness of an optional string: [undefined] and the empty
    string are falsy. *)
Definition truthy (o : option string) : bool :=
  match o with
  | Some s => negb (String.eqb s "")
  | None => false
  end.

(** ** Signal detection (signals.ts) *)

(** *** Case-insensitive literal patterns

    Every pattern is a literal of ASCII letters and underscores with the [i]
    flag.  Under [i] (without [u]) a character is canonicalised by upper-casing
    it, and a non-ASCII character never canonicalises to an ASCII one, so on
    text read as UTF-8 the match is decided byte by byte: bytes of multi-byte
    sequences are all above 127 and are left alone by [canonicalize]. *)

Definition is_lower (c : ascii) : bool :=
  (97 <=? nat_of_ascii c)%nat && (nat_of_ascii c <=? 122)%nat.

Definition canonicalize (c : ascii) : ascii :=
  if is_lower c then ascii_of_nat (nat_of_ascii c - 32) else c.

Fixpoint toUpperCase (s : string) : string :=
  match s with
  | EmptyString => EmptyString
  | String c s' => String (canonicalize c) (toUpperCase s')
  end.

(** The pattern matches at the very start of [text]. *)
Fixpoint matches_here (pat text : string) : bool :=
  match pat, text with
  | EmptyString, _ => true
  | String _ _, EmptyString => false
  | String p pat', String c text' =>
      Ascii.eqb (canonicalize p) (canonicalize c) && matches_here pat' text'
  end.

(** [RegExp.prototype.test] for an unanchored literal with the [i] flag:
    try every start position, leftmost first. *)
Fixpoint regexp_test (pat text : string) : bool :=
  matches_here pat text ||
  match text with
  | EmptyString => false
  | String _ text' => regexp_test pat text'
  end.

(** [SIGNAL_PATTERNS], as the table it is; a pattern is kept as its literal. *)
Definition SIGNAL_PATTERNS : list (AutopilotSignal * string) :=
  [ (EXPANSION_COMPLETE, "EXPANSION_COMPLETE");
    (PLANNING_COMPLETE, "PLANNING_COMPLETE");
    (EXECUTION_COMPLETE, "EXECUTION_COMPLETE");
    (QA_COMPLETE, "QA_COMPLETE");
    (VALIDATION_COMPLETE, "VALIDATION_COMPLETE");
    (AUTOPILOT_COMPLETE, "AUTOPILOT_COMPLETE");
    (TRANSITION_TO_QA, "TRANSITION_TO_QA");
    (TRANSITION_TO_VALIDATION, "TRANSITION_TO_VALIDATION") ].

(** [SIGNAL_PATTERNS[signal]]. *)
Fixpoint pattern_of (table : list (AutopilotSignal * string))
    (signal : AutopilotSignal) : option string :=
  match table with
  | [] => None
  | (k, pat) :: table' =>
      if decide (k = signal) then Some pat else pattern_of table' signal
  end.

(** *** Transcript files *)

(** What lies at a path: text that can be read, or a file whose
    [readFileSync] raises. *)
Inductive FileEntry :=
  | Readable (content : string)
  | Unreadable.

Definition existsSync (fs : gmap string FileEntry) (path : string) : bool :=
  bool_decide (is_Some (fs !! path)).

(** [readFileSync(path, 'utf-8')]; [None] stands for the raised exception. *)
Definition readFileSync (fs : gmap string FileEntry) (path : string)
    : option string :=
  match fs !! path with
  | Some (Readable content) => Some content
  | _ => None
  end.

(** The [for ... of possiblePaths] loop of [detectSignal]. *)
Fixpoint scanPaths (fs : gmap string FileEntry) (pattern : string)
    (paths : list string) : bool :=
  match paths with
  | [] => false
  | transcriptPath :: rest =>
      if existsSync fs transcriptPath then
        match readFileSync fs transcriptPath with
        | Some content =>
            if regexp_test pattern content then true
            else scanPaths fs pattern rest
        | None => scanPaths fs pattern rest
        end
      else scanPaths fs pattern rest
  end.

Section Detect.
(** [os.homedir()] and [path.join]. *)
Variable homedir : string.
Variable join : list string -> string.

Definition possiblePaths (sessionId : string) : list string :=
  let claudeDir := join [homedir; ".claude"] in
  [ join [claudeDir; "sessions"; sessionId; "transcript.md"];
    join [claudeDir; "sessions"; sessionId; "messages.json"];
    join [claudeDir; "transcripts"; sessionId +:+ ".md"] ].

Definition detectSignal (fs : gmap string FileEntry) (sessionId : string)
    (signal : AutopilotSignal) : bool :=
  match pattern_of SIGNAL_PATTERNS signal with
  | None => false
  | Some pattern => scanPaths fs pattern (possiblePaths sessionId)
  end.

(** [Object.keys(SIGNAL_PATTERNS)], in insertion order. *)
Definition signal_keys : list AutopilotSignal := SIGNAL_PATTERNS.*1.

Fixpoint firstDetected (fs : gmap string FileEntry) (sessionId : string)
    (signals : list AutopilotSignal) : option AutopilotSignal :=
  match signals with
  | [] => None
  | signal :: rest =>
      if detectSignal fs sessionId signal then Some signal
      else firstDetected fs sessionId rest
  end.

Definition detectAnySignal (fs : gmap string FileEntry) (sessionId : string)
    : option AutopilotSignal :=
  firstDetected fs sessionId signal_keys.
End Detect.

Definition getExpectedSignalForPhase (phase : AutopilotPhase)
    : option AutopilotSignal :=
  match phase with
  | expansion => Some EXPANSION_COMPLETE
  | planning => Some PLANNING_COMPLETE
  | execution => Some EXECUTION_COMPLETE
  | qa => Some QA_COMPLETE
  | validation => Some VALIDATION_COMPLETE
  | _ => None
  end.

(** *** What a match means *)

(** [text] contains a stretch that equals the pattern up to ASCII case. *)
Definition contains_marker (pat text : string) : Prop :=
  exists before mid after,
    text = before +:+ mid +:+ after /\ toUpperCase mid = toUpperCase pat.

(** The marker of a signal is its own name. *)
Definition marker (signal : AutopilotSignal) : string :=
  match signal with
  | EXPANSION_COMPLETE => "EXPANSION_COMPLETE"
  | PLANNING_COMPLETE => "PLANNING_COMPLETE"
  | EXECUTION_COMPLETE => "EXECUTION_COMPLETE"
  | QA_COMPLETE => "QA_COMPLETE"
  | VALIDATION_COMPLETE => "VALIDATION_COMPLETE"
  | AUTOPILOT_COMPLETE => "AUTOPILOT_COMPLETE"
  | TRANSITION_TO_QA => "TRANSITION_TO_QA"
  | TRANSITION_TO_VALIDATION => "TRANSITION_TO_VALIDATION"
  end.


(** ** Persisted record and result (types.ts, enforcement.ts) *)

(** The substate blocks, as far as the controller reads them. *)
Record AutopilotExpansion := { spec_path : option string }.
Record AutopilotPlanning := { plan_path : option string }.
Record AutopilotExecution := { tasks_completed : Z; tasks_total : Z }.

(** [AutopilotState], the enforcement record; the blocks are fields
    [expansion], [planning] and [execution] in the source. *)
Record AutopilotState := {
  active : bool;
  session_id : option string;
  phase : AutopilotPhase;
  iteration : Z;
  max_iterations : Z;
  originalIdea : string;
  expansion_block : AutopilotExpansion;
  planning_block : AutopilotPlanning;
  execution_block : AutopilotExecution;
}.

Definition set_phase (newPhase : AutopilotPhase) (s : AutopilotState)
    : AutopilotState :=
  {| active := active s; session_id := session_id s; phase := newPhase;
     iteration := iteration s; max_iterations := max_iterations s;
     originalIdea := originalIdea s; expansion_block := expansion_block s;
     planning_block := planning_block s;
     execution_block := execution_block s |}.

Definition set_iteration (n : Z) (s : AutopilotState) : AutopilotState :=
  {| active := active s; session_id := session_id s; phase := phase s;
     iteration := n; max_iterations := max_iterations s;
     originalIdea := originalIdea s; expansion_block := expansion_block s;
     planning_block := planning_block s;
     execution_block := execution_block s |}.

Record Metadata := {
  meta_iteration : Z;
  maxIterations : Z;
  tasksCompleted : Z;
  tasksTotal : Z;
}.

(** [AutopilotEnforcementResult]; its [phase] field is [result_phase]. *)
Record AutopilotEnforcementResult := {
  shouldBlock : bool;
  message : string;
  result_phase : AutopilotPhase;
  metadata : option Metadata;
}.

(** transition.ts: [TransitionResult], of which the controller reads
    [success] only. *)
Record TransitionResult := { success : bool }.

(** ** The world a check runs in *)

(** One entry per call of an operation that mutates persisted state. *)
Inductive Mutation :=
  | MWrite (dir : string)
  | MSetPhase (dir : string) (newPhase : AutopilotPhase)
  | MRalphToUltraQA (dir : string)
  | MUltraQAToValidation (dir : string)
  | MComplete (dir : string).

Record World := {
  store : gmap string AutopilotState;
  journal : list Mutation;
}.

Definition M (A : Type) : Type := World -> A * World.

#[global] Instance M_ret : MRet M := fun A (a : A) w => (a, w).
#[global] Instance M_bind : MBind M :=
  fun A B (f : A -> M B) (m : M A) w => let (a, w') := m w in f a w'.

(** The collaborators of the controller.  [homedir], [cwd] and [join] are
    Node's [os.homedir()], [process.cwd()] and [path.join]; [getPhasePrompt]
    is prompts.ts; the three transition operations are transition.ts, which
    is not among the sources: each takes the store to a [TransitionResult]
    and the store it leaves behind. *)
Record Host := {
  homedir : string;
  cwd : string;
  join : list string -> string;
  getPhasePrompt : AutopilotPhase -> string -> string -> string -> string;
  transitionRalphToUltraQA :
    string -> string -> gmap string AutopilotState ->
    TransitionResult * gmap string AutopilotState;
  transitionUltraQAToValidation :
    string -> gmap string AutopilotState ->
    TransitionResult * gmap string AutopilotState;
  transitionToComplete :
    string -> gmap string AutopilotState ->
    TransitionResult * gmap string AutopilotState;
}.

(** *** StateStore *)

(** Modelled from the spec: state.ts is not among the sources.  Section 4.1:
    [load(dir)] gives the record or absent and never raises. *)
Definition readAutopilotState (dir : string) : M (option AutopilotState) :=
  fun w => (store w !! dir, w).

(** Modelled from the spec: state.ts is not among the sources.  Section 4.1:
    [save(dir, record)] is a full overwrite. *)
Definition writeAutopilotState (dir : string) (state : AutopilotState)
    : M unit :=
  fun w => (tt, {| store := <[dir := state]> (store w);
                   journal := journal w ++ [MWrite dir] |}).

(** Modelled from the spec: state.ts is not among the sources.  Section 4.3:
    the generic [setPhase(dir, newPhase)] is a simple field update of the
    record of [dir]. *)
Definition transitionPhase (dir : string) (newPhase : AutopilotPhase)
    : M unit :=
  fun w => (tt, {| store := alter (set_phase newPhase) dir (store w);
                   journal := journal w ++ [MSetPhase dir newPhase] |}).

(** A call of a transition operation of the host. *)
Definition callTransition (tag : Mutation)
    (op : gmap string AutopilotState ->
          TransitionResult * gmap string AutopilotState)
    : M TransitionResult :=
  fun w => let (result, store') := op (store w) in
           (result, {| store := store'; journal := journal w ++ [tag] |}).

(** ** The controller (enforcement.ts) *)

Definition getNextPhase (current : AutopilotPhase) : option AutopilotPhase :=
  match current with
  | expansion => Some planning
  | planning => Some execution
  | execution => Some qa
  | qa => Some validation
  | validation => Some complete
  | _ => None
  end.

(** [a || b] on an optional string and a default. *)
Definition or_default (o : option string) (d : string) : string :=
  match o with
  | Some s => if String.eqb s "" then d else s
  | None => d
  end.

(** The guard of the session-binding check:
    [state.session_id && sessionId && state.session_id !== sessionId]. *)
Definition sessionMismatch (state : AutopilotState)
    (sessionId : option string) : bool :=
  truthy (session_id state) && truthy sessionId &&
  negb (bool_decide (session_id state = sessionId)).

Definition stoppedMessage (state : AutopilotState) : string :=
  "[AUTOPILOT STOPPED] Max iterations (" +:+ pretty (max_iterations state)
  +:+ ") reached. Consider reviewing progress.".

Definition completeMessage : string :=
  "[AUTOPILOT COMPLETE] All phases finished successfully!".

Definition failedMessage : string :=
  "[AUTOPILOT FAILED] Session ended in failure state.".

Definition stoppedResult (state : AutopilotState)
    : AutopilotEnforcementResult :=
  {| shouldBlock := false; message := stoppedMessage state;
     result_phase := failed; metadata := None |}.

Definition completeResult : AutopilotEnforcementResult :=
  {| shouldBlock := false; message := completeMessage;
     result_phase := complete; metadata := None |}.

Definition failedResult : AutopilotEnforcementResult :=
  {| shouldBlock := false; message := failedMessage;
     result_phase := failed; metadata := None |}.

(** The template literal of [generateContinuationPrompt]. *)
Definition continuationPrompt (state : AutopilotState) (phasePrompt : string)
    : string :=
  "<autopilot-continuation>

[AUTOPILOT - PHASE: " +:+ toUpperCase (phase_name (phase state))
  +:+ " | ITERATION " +:+ pretty (iteration state) +:+ "/"
  +:+ pretty (max_iterations state) +:+ "]

Your previous response did not signal phase completion. Continue working on the current phase.

" +:+ phasePrompt +:+ "

IMPORTANT: When the phase is complete, output the appropriate signal:
- Expansion: EXPANSION_COMPLETE
- Planning: PLANNING_COMPLETE
- Execution: EXECUTION_COMPLETE
- QA: QA_COMPLETE
- Validation: AUTOPILOT_COMPLETE

</autopilot-continuation>

---

".

Section Controller.
Variable host : Host.
Variable fs : gmap string FileEntry.

(** The result [generateContinuationPrompt] builds from the record it has
    just written. *)
Definition continuationResult (state : AutopilotState)
    : AutopilotEnforcementResult :=
  let phasePrompt :=
    getPhasePrompt host (phase state) (originalIdea state)
      (or_default (spec_path (expansion_block state))
         ".omc/autopilot/spec.md")
      (or_default (plan_path (planning_block state))
         ".omc/plans/autopilot-impl.md") in
  {| shouldBlock := true;
     message := continuationPrompt state phasePrompt;
     result_phase := phase state;
     metadata := Some {|
       meta_iteration := iteration state;
       maxIterations := max_iterations state;
       tasksCompleted := tasks_completed (execution_block state);
       tasksTotal := tasks_total (execution_block state) |} |}.

Definition generateContinuationPrompt (state : AutopilotState)
    (directory : string) : M AutopilotEnforcementResult :=
  let state := set_iteration (iteration state + 1) state in
  _ ← writeAutopilotState directory state;
  mret (continuationResult state).

(** Lines 128-132: reload the record and continue from it; [None] when the
    reload finds nothing and control falls out of the [if]. *)
Definition continueFromReload (workingDir : string)
    : M (option AutopilotEnforcementResult) :=
  newState ← readAutopilotState workingDir;
  match newState with
  | Some newState =>
      r ← generateContinuationPrompt newState workingDir; mret (Some r)
  | None => mret None
  end.

(** Lines 103-133, the body of the signal-detected [if]: [Some r] when it
    returns [r], [None] when control falls through to line 137. *)
Definition phaseCompleted (state : AutopilotState)
    (workingDir sessionId : string)
    : M (option AutopilotEnforcementResult) :=
  match getNextPhase (phase state) with
  | None => mret None
  | Some nextPhase =>
      if bool_decide (phase state = execution)
         && bool_decide (nextPhase = qa) then
        result ← callTransition (MRalphToUltraQA workingDir)
                   (transitionRalphToUltraQA host workingDir sessionId);
        if negb (success result) then
          r ← generateContinuationPrompt state workingDir; mret (Some r)
        else continueFromReload workingDir
      else if bool_decide (phase state = qa)
              && bool_decide (nextPhase = validation) then
        result ← callTransition (MUltraQAToValidation workingDir)
                   (transitionUltraQAToValidation host workingDir);
        if negb (success result) then
          r ← generateContinuationPrompt state workingDir; mret (Some r)
        else continueFromReload workingDir
      else if bool_decide (nextPhase = complete) then
        _ ← callTransition (MComplete workingDir)
              (transitionToComplete host workingDir);
        mret (Some completeResult)
      else
        _ ← transitionPhase workingDir nextPhase;
        continueFromReload workingDir
  end.

(** The guard of line 101:
    [expectedSignal && sessionId && detectSignal(sessionId, expectedSignal)];
    when it holds, the session id the branch goes on with. *)
Definition signalDetected (state : AutopilotState)
    (sessionId : option string) : option string :=
  match getExpectedSignalForPhase (phase state), sessionId with
  | Some expectedSignal, Some sid =>
      if truthy sessionId
         && detectSignal (homedir host) (join host) fs sid expectedSignal
      then Some sid else None
  | _, _ => None
  end.

Definition checkAutopilot (sessionId directory : option string)
    : M (option AutopilotEnforcementResult) :=
  let workingDir := or_default directory (cwd host) in
  state ← readAutopilotState workingDir;
  match state with
  | None => mret None
  | Some state =>
      if negb (active state) then mret None
      else if sessionMismatch state sessionId then mret None
      else if bool_decide (max_iterations state <= iteration state) then
        _ ← transitionPhase workingDir failed;
        mret (Some (stoppedResult state))
      else if bool_decide (phase state = complete) then
        mret (Some completeResult)
      else if bool_decide (phase state = failed) then
        mret (Some failedResult)
      else
        returned ← match signalDetected state sessionId with
                   | Some sid => phaseCompleted state workingDir sid
                   | None => mret None
                   end;
        match returned with
        | Some r => mret (Some r)
        | None =>
            r ← generateContinuationPrompt state workingDir; mret (Some r)
        end
  end.

(** Repeated ticks: [n] calls of [checkAutopilot] in a row, the results
    dropped. *)
Fixpoint checkRepeatedly (n : nat) (sessionId directory : option string)
    (w : World) : World :=
  match n with
  | O => w
  | S n' =>
      checkRepeatedly n' sessionId directory
        (checkAutopilot sessionId directory w).2
  end.

(** *** The decision as section 4.4 words it

    Steps 1-5 and 7 as the code has them; in step 6 a successful edge that
    does not land on [complete] is followed by a re-run of the whole
    decision on the reloaded record.  [fuel] bounds the re-runs; [None] on
    the left of the pair tells that it ran out. *)
Fixpoint decision_spec (fuel : nat) (sessionId : option string)
    (workingDir : string) : M (option (option AutopilotEnforcementResult)) :=
  match fuel with
  | O => mret None
  | S fuel' =>
      state ← readAutopilotState workingDir;
      match state with
      | None => mret (Some None)
      | Some state =>
          if negb (active state) then mret (Some None)
          else if sessionMismatch state sessionId then mret (Some None)
          else if bool_decide (max_iterations state <= iteration state) then
            _ ← transitionPhase workingDir failed;
            mret (Some (Some (stoppedResult state)))
          else if bool_decide (phase state = complete) then
            mret (Some (Some completeResult))
          else if bool_decide (phase state = failed) then
            mret (Some (Some failedResult))
          else
            let step7 : M (option (option AutopilotEnforcementResult)) :=
              r ← generateContinuationPrompt state workingDir;
              mret (Some (Some r)) in
            match signalDetected state sessionId, getNextPhase (phase state)
            with
            | Some sid, Some nextPhase =>
                if bool_decide (phase state = execution) then
                  result ← callTransition (MRalphToUltraQA workingDir)
                             (transitionRalphToUltraQA host workingDir sid);
                  if success result
                  then decision_spec fuel' sessionId workingDir
                  else step7
                else if bool_decide (phase state = qa) then
                  result ← callTransition (MUltraQAToValidation workingDir)
                             (transitionUltraQAToValidation host workingDir);
                  if success result
                  then decision_spec fuel' sessionId workingDir
                  else step7
                else if bool_decide (nextPhase = complete) then
                  _ ← callTransition (MComplete workingDir)
                        (transitionToComplete host workingDir);
                  mret (Some (Some completeResult))
                else
                  _ ← transitionPhase workingDir nextPhase;
                  decision_spec fuel' sessionId workingDir
            | _, _ => step7
            end
      end
  end.

Definition check_spec (fuel : nat) (sessionId directory : option string)
    : M (option (option AutopilotEnforcementResult)) :=
  decision_spec fuel sessionId (or_default directory (cwd host)).
End Controller.

(** The record a continuation leaves behind: the iteration counted up. *)
Definition ticked (state : AutopilotState) : AutopilotState :=
  set_iteration (iteration state + 1) state.

(** The phase the store holds for a directory, and the phase a result
    carries. *)
Definition persisted_phase (w : World) (dir : string)
    : option AutopilotPhase :=
  phase <$> store w !! dir.

Definition returned_phase (r : option AutopilotEnforcementResult)
    : option AutopilotPhase :=
  result_phase <$> r.

(** Number of mutating calls journalled between two worlds. *)
Definition mutations (w w' : World) : nat :=
  (List.length (journal w') - List.length (journal w))%nat.

(** Modelled from the spec: transition.ts is not among the sources.
    Section 8: a successful transition out of phase P makes the persisted
    phase [nextPhase(P)]; for the two compound edges that is [qa] and
    [validation]. *)
Definition compound_success_advances (host : Host) : Prop :=
  (forall dir sid st s,
      success (transitionRalphToUltraQA host dir sid st).1 = true ->
      (transitionRalphToUltraQA host dir sid st).2 !! dir = Some s ->
      phase s = qa) /\
  (forall dir st s,
      success (transitionUltraQAToValidation host dir st).1 = true ->
      (transitionUltraQAToValidation host dir st).2 !! dir = Some s ->
      phase s = validation).

(** ** A host after the spec's description of the collaborators *)

(** Modelled from the spec: transition.ts is not among the sources.
    Section 4.3: a compound or finalize edge validates its precondition (the
    record is in the phase the edge leaves) and reports failure without
    advancing otherwise; on success the phase is the successor.  Section 3:
    [iteration] is mutated by the controller's continuation path alone, so the
    operation leaves it as it is. *)
Definition specTransition (from to : AutopilotPhase) (dir : string)
    (st : gmap string AutopilotState)
    : TransitionResult * gmap string AutopilotState :=
  match st !! dir with
  | Some s =>
      if bool_decide (phase s = from)
      then ({| success := true |}, <[dir := set_phase to s]> st)
      else ({| success := false |}, st)
  | None => ({| success := false |}, st)
  end.

(** A transition operation whose side effect fails: it reports failure and
    leaves the store alone. *)
Definition failingTransition (dir : string) (st : gmap string AutopilotState)
    : TransitionResult * gmap string AutopilotState :=
  ({| success := false |}, st).

(** [path.join] on segments that need no normalising. *)
Definition slash_join (parts : list string) : string :=
  String.concat "/" parts.

(** A stand-in for the opaque prompt-composition service. *)
Definition sample_prompt (p : AutopilotPhase) (idea specPath planPath : string)
    : string :=
  "Work on " +:+ phase_name p +:+ " of: " +:+ idea.

Definition spec_host : Host :=
  {| homedir := "/home/u"; cwd := "/w"; join := slash_join;
     getPhasePrompt := sample_prompt;
     transitionRalphToUltraQA := fun dir _ => specTransition execution qa dir;
     transitionUltraQAToValidation := specTransition qa validation;
     transitionToComplete := specTransition validation complete |}.

Definition failing_host : Host :=
  {| homedir := "/home/u"; cwd := "/w"; join := slash_join;
     getPhasePrompt := sample_prompt;
     transitionRalphToUltraQA := fun dir _ => failingTransition dir;
     transitionUltraQAToValidation := failingTransition;
     transitionToComplete := failingTransition |}.

(** ** Sample records, transcripts and worlds *)

Definition sample_state (ph : AutopilotPhase) (it : Z) : AutopilotState :=
  {| active := true; session_id := Some "s1"; phase := ph; iteration := it;
     max_iterations := 50; originalIdea := "a todo app";
     expansion_block := {| spec_path := None |};
     planning_block := {| plan_path := None |};
     execution_block := {| tasks_completed := 2; tasks_total := 5 |} |}.

Definition world_of (s : AutopilotState) : World :=
  {| store := {[ "/w" := s ]}; journal := [] |}.

(** The first candidate location of session [s1] under [spec_host]. *)
Definition s1_transcript : string := "/home/u/.claude/sessions/s1/transcript.md".

Definition transcript_with (text : string) : gmap string FileEntry :=
  {[ s1_transcript := Readable text ]}.

Definition no_transcript : gmap string FileEntry := ∅.

(** ** Further notions used in the statements below *)

(** Two directory entries hold the same thing up to letter case: nothing,
    an unreadable file, or texts that upper-case to the same string. *)
Definition same_upto_case (e1 e2 : option FileEntry) : Prop :=
  match e1, e2 with
  | None, None => True
  | Some Unreadable, Some Unreadable => True
  | Some (Readable t1), Some (Readable t2) => toUpperCase t1 = toUpperCase t2
  | _, _ => False
  end.

(** [fs'] is [fs] grown: every text readable in [fs] is still readable in
    [fs'], with more text around it. *)
Definition transcripts_grow (fs fs' : gmap string FileEntry) : Prop :=
  forall path content,
    fs !! path = Some (Readable content) ->
    exists before after,
      fs' !! path = Some (Readable (before +:+ content +:+ after)).

(** Place of a phase in the canonical order; [failed] stands apart. *)
Definition phase_rank (p : AutopilotPhase) : nat :=
  match p with
  | expansion => 0 | planning => 1 | execution => 2 | qa => 3
  | validation => 4 | complete => 5 | failed => 6
  end.

(** No transition operation of the host reaches the record of another
    directory. *)
Definition transitions_local (host : Host) : Prop :=
  forall dir other st,
    other <> dir ->
    (forall sid,
       (transitionRalphToUltraQA host dir sid st).2 !! other = st !! other) /\
    (transitionUltraQAToValidation host dir st).2 !! other = st !! other /\
    (transitionToComplete host dir st).2 !! other = st !! other.


(** A transition operation that reports success and removes the record. *)
Definition removingTransition (dir : string)
    (st : gmap string AutopilotState)
    : TransitionResult * gmap string AutopilotState :=
  ({| success := true |}, delete dir st).

Definition removing_host : Host :=
  {| homedir := "/home/u"; cwd := "/w"; join := slash_join;
     getPhasePrompt := sample_prompt;
     transitionRalphToUltraQA := fun dir _ => removingTransition dir;
     transitionUltraQAToValidation := removingTransition;
     transitionToComplete := removingTransition |}.

(** ** Session health (hud/index.ts) *)

Inductive Health := healthy | warning | critical.

#[global] Instance Health_eq_dec : EqDecision Health.
Proof. solve_decision. Defined.

(** types.ts of the HUD: [SessionHealth]. *)
Record SessionHealth := {
  durationMinutes : Z;
  messageCount : Z;
  health : Health;
}.

(** [a > b] on numbers, with the context percentage a rational. *)
Definition Qgtb (a b : Q) : bool := negb (Qle_bool a b).

(** [calculateSessionHealth].  [now] is [Date.now()] and [sessionStart] the
    start's [getTime()], both in milliseconds; [Math.floor] of the quotient
    is the floor division of [Z]. *)
Definition calculateSessionHealth (now : Z) (sessionStart : option Z)
    (contextPercent : Q) : option SessionHealth :=
  match sessionStart with
  | None => None
  | Some start =>
      let durationMs := now - start in
      let durationMinutes := durationMs / 60000 in
      let health :=
        if (120 <? durationMinutes)%Z || Qgtb contextPercent (inject_Z 85)
        then critical
        else if (60 <? durationMinutes)%Z || Qgtb contextPercent (inject_Z 70)
        then warning
        else healthy in
      Some {| durationMinutes := durationMinutes; messageCount := 0;
              health := health |}
  end.

(** How grave a health verdict is. *)
Definition severity (h : Health) : nat :=
  match h with healthy => 0 | warning => 1 | critical => 2 end.

(** [output.replace(/ /g, NBSP)] of [main], on the UTF-16 code units of
    the string: every space becomes a no-break space. *)
Definition formattedOutput (output : list Z) : list Z :=
  (fun c => if (c =? 32)%Z then 160 else c) <$> output.
Lemma pattern_of_marker signal :
  pattern_of SIGNAL_PATTERNS signal = Some (marker signal).
Proof. by destruct signal. Qed.

Lemma matches_here_spec pat text :
  matches_here pat text = true <->
  exists mid after, text = mid +:+ after /\ toUpperCase mid = toUpperCase pat.
Proof.
  revert text. induction pat as [|p pat IH]; intros text; simpl.
  - split; [|done]. intros _. by exists "", text.
  - destruct text as [|c text].
    + split; [done|]. intros (mid & after & Heq & Hup).
      destruct mid; simpl in *; discriminate.
    + rewrite andb_true_iff, IH. split.
      * intros [Hc (mid & after & -> & Hup)].
        apply Ascii.eqb_eq in Hc.
        exists (String c mid), after. simpl. by rewrite Hup, Hc.
      * intros (mid & after & Heq & Hup).
        destruct mid as [|c' mid]; simpl in *; [done|].
        injection Heq as -> ->. injection Hup as Hc Hup.
        split; [by apply Ascii.eqb_eq|]. by exists mid, after.
Qed.

Lemma regexp_test_spec pat text :
  regexp_test pat text = true <-> contains_marker pat text.
Proof.
  unfold contains_marker.
  induction text as [|c text IH]; simpl; rewrite orb_true_iff.
  - rewrite matches_here_spec. split.
    + intros [(mid & after & Heq & Hup)|]; [|done]. by exists "", mid, after.
    + intros (before & mid & after & Heq & Hup). left.
      destruct before; simpl in *; [|done]. by exists mid, after.
  - rewrite matches_here_spec, IH. split.
    + intros [(mid & after & Heq & Hup)|(before & mid & after & Heq & Hup)].
      * by exists "", mid, after.
      * exists (String c before), mid, after. simpl. by rewrite Heq.
    + intros (before & mid & after & Heq & Hup).
      destruct before as [|c' before]; simpl in *.
      * left. by exists mid, after.
      * right. injection Heq as -> ->. by exists before, mid, after.
Qed.

(** The loop answers yes exactly when some listed path holds readable text
    that passes the pattern. *)
Lemma scanPaths_spec fs pattern paths :
  scanPaths fs pattern paths = true <->
  exists path content,
    path ∈ paths /\ fs !! path = Some (Readable content) /\
    regexp_test pattern content = true.
Proof.
  induction paths as [|p rest IH]; simpl.
  - split; [done|]. intros (path & content & Hin & _). by apply elem_of_nil in Hin.
  - assert (Hrest : scanPaths fs pattern rest = true ->
      exists path content, path ∈ p :: rest /\
        fs !! path = Some (Readable content) /\
        regexp_test pattern content = true).
    { intros (path & content & Hin & H)%IH.
      exists path, content. split; [by apply elem_of_cons; right|done]. }
    assert (Hback : forall path content, path ∈ p :: rest ->
      fs !! path = Some (Readable content) ->
      regexp_test pattern content = true ->
      path <> p \/ fs !! p <> Some (Readable content) ->
      scanPaths fs pattern rest = true).
    { intros path content Hin Hl Ht Hne. apply IH.
      apply elem_of_cons in Hin as [->|Hin]; [by destruct Hne|].
      by exists path, content. }
    unfold existsSync, readFileSync.
    destruct (fs !! p) as [[content|]|] eqn:Hp; simpl.
    + destruct (regexp_test pattern content) eqn:Ht.
      * split; [|done]. intros _. exists p, content.
        split; [by apply elem_of_cons; left|done].
      * split; [done|]. intros (path & content' & Hin & Hl & Ht').
        apply (Hback path content' Hin Hl Ht').
        destruct (decide (path = p)) as [->|]; [|by left].
        right. rewrite Hp in Hl. injection Hl as ->. congruence.
    + split; [done|]. intros (path & content' & Hin & Hl & Ht').
      apply (Hback path content' Hin Hl Ht').
      destruct (decide (path = p)) as [->|]; [|by left]. congruence.
    + split; [done|]. intros (path & content' & Hin & Hl & Ht').
      apply (Hback path content' Hin Hl Ht').
      destruct (decide (path = p)) as [->|]; [|by left]. congruence.
Qed.

Lemma scanPaths_perm fs pattern paths paths' :
  Permutation paths paths' ->
  scanPaths fs pattern paths = scanPaths fs pattern paths'.
Proof.
  intros Hperm. apply eq_true_iff_eq. rewrite !scanPaths_spec.
  split; intros (path & content & Hin & H); exists path, content;
    (split; [|done]); [by rewrite <- Hperm|by rewrite Hperm].
Qed.

(** C8. [detectSignal sessionId signal] is true if and only if one of the
    three candidate transcript locations of the session exists, can be read,
    and its whole text contains the signal's marker up to letter case.  A
    candidate that exists but cannot be read is passed over (with nothing but
    unreadable candidates the answer is false, not an error), and scanning the
    candidates in any other order gives the same answer. *)
Theorem detectSignal_iff_some_candidate_matches
    (homedir : string) (join : list string -> string)
    (fs : gmap string FileEntry) (sessionId : string)
    (signal : AutopilotSignal) :
  (detectSignal homedir join fs sessionId signal = true <->
   exists path content,
     path ∈ possiblePaths homedir join sessionId /\
     existsSync fs path = true /\
     readFileSync fs path = Some content /\
     contains_marker (marker signal) content) /\
  ((forall path, path ∈ possiblePaths homedir join sessionId ->
      fs !! path = Some Unreadable \/ fs !! path = None) ->
   detectSignal homedir join fs sessionId signal = false) /\
  (forall paths, Permutation (possiblePaths homedir join sessionId) paths ->
     scanPaths fs (marker signal) paths
     = detectSignal homedir join fs sessionId signal).
Proof.
  unfold detectSignal. rewrite pattern_of_marker.
  split; [|split].
  - rewrite scanPaths_spec. unfold existsSync, readFileSync.
    split.
    + intros (path & content & Hin & Hl & Ht).
      exists path, content. rewrite Hl.
      split; [done|]. split; [by apply bool_decide_eq_true|].
      split; [done|]. by apply regexp_test_spec.
    + intros (path & content & Hin & _ & Hr & Hm).
      exists path, content. split; [done|].
      destruct (fs !! path) as [[c|]|]; try done.
      injection Hr as ->. split; [done|]. by apply regexp_test_spec.
  - intros Hnone. apply not_true_is_false. rewrite scanPaths_spec.
    intros (path & content & Hin & Hl & _).
    destruct (Hnone path Hin) as [H|H]; congruence.
  - intros paths Hperm. symmetry. by apply scanPaths_perm.
Qed.


Lemma detectSignal_iff_some_candidate_matches_witness :
  detectSignal "/home/u" slash_join
    (transcript_with "all done. Execution_Complete!") "s1" EXECUTION_COMPLETE
  = true.
Proof.
  apply (proj1 (detectSignal_iff_some_candidate_matches "/home/u" slash_join
                  (transcript_with "all done. Execution_Complete!") "s1"
                  EXECUTION_COMPLETE)).
  exists s1_transcript, "all done. Execution_Complete!".
  split; [apply list_elem_of_here|].
  split; [reflexivity|]. split; [reflexivity|].
  exists "all done. ", "Execution_Complete", "!". split; reflexivity.
Defined.

(** ** The controller, branch by branch *)

Ltac run_monad :=
  unfold generateContinuationPrompt, continueFromReload, writeAutopilotState,
    readAutopilotState, transitionPhase, callTransition, mbind, M_bind, mret,
    M_ret; simpl.

Section ControllerFacts.
Variable host : Host.
Variable fs : gmap string FileEntry.
Variables sessionId directory : option string.

Let workingDir := or_default directory (cwd host).

Lemma generateContinuationPrompt_run state dir w :
  generateContinuationPrompt host state dir w =
    (continuationResult host (ticked state),
     {| store := <[dir := ticked state]> (store w);
        journal := journal w ++ [MWrite dir] |}).
Proof. reflexivity. Qed.

Lemma check_absent w :
  store w !! workingDir = None ->
  checkAutopilot host fs sessionId directory w = (None, w).
Proof.
  intros Hload. unfold checkAutopilot. run_monad.
  fold workingDir. by rewrite Hload.
Qed.

Lemma check_inactive w state :
  store w !! workingDir = Some state -> active state = false ->
  checkAutopilot host fs sessionId directory w = (None, w).
Proof.
  intros Hload Hact. unfold checkAutopilot. run_monad.
  fold workingDir. by rewrite Hload, Hact.
Qed.

Lemma check_mismatch w state :
  store w !! workingDir = Some state ->
  sessionMismatch state sessionId = true ->
  checkAutopilot host fs sessionId directory w = (None, w).
Proof.
  intros Hload Hmis. unfold checkAutopilot. run_monad.
  fold workingDir. rewrite Hload, Hmis. by destruct (active state).
Qed.

Section PastGuards.
Variables (w : World) (state : AutopilotState).
Hypothesis Hload : store w !! workingDir = Some state.
Hypothesis Hactive : active state = true.
Hypothesis Hbinding : sessionMismatch state sessionId = false.

Lemma check_ceiling :
  max_iterations state <= iteration state ->
  checkAutopilot host fs sessionId directory w =
    (Some (stoppedResult state),
     {| store := alter (set_phase failed) workingDir (store w);
        journal := journal w ++ [MSetPhase workingDir failed] |}).
Proof.
  intros Hmax. unfold checkAutopilot. run_monad. fold workingDir.
  rewrite Hload, Hactive, Hbinding. simpl.
  by rewrite bool_decide_eq_true_2.
Qed.

Lemma check_below_ceiling :
  iteration state < max_iterations state ->
  checkAutopilot host fs sessionId directory w =
    if bool_decide (phase state = complete) then (Some completeResult, w)
    else if bool_decide (phase state = failed) then (Some failedResult, w)
    else
      match signalDetected host fs state sessionId with
      | Some sid =>
          let (returned, w1) :=
            phaseCompleted host state workingDir sid w in
          match returned with
          | Some r => (Some r, w1)
          | None =>
              (Some (continuationResult host (ticked state)),
               {| store := <[workingDir := ticked state]> (store w1);
                  journal := journal w1 ++ [MWrite workingDir] |})
          end
      | None =>
          (Some (continuationResult host (ticked state)),
           {| store := <[workingDir := ticked state]> (store w);
              journal := journal w ++ [MWrite workingDir] |})
      end.
Proof.
  intros Hlt. unfold checkAutopilot. run_monad. fold workingDir.
  rewrite Hload, Hactive, Hbinding. simpl.
  rewrite bool_decide_eq_false_2 by lia.
  repeat case_bool_decide; try done.
  destruct (signalDetected host fs state sessionId) as [sid|]; [|done].
  destruct (phaseCompleted host state workingDir sid w) as [[r|] w1]; done.
Qed.
End PastGuards.
End ControllerFacts.

(** ** Forced failure at the iteration ceiling *)

(** C1. For an active record that passes the session-binding check and whose
    iteration has reached max_iterations, check returns the stop notice with
    shouldBlock false and phase failed, and the persisted record is the old
    one with its phase set to failed.  The transcript files [fs] and the
    record's phase are arbitrary: the branch comes before the complete and
    failed short-circuits and before signal detection, and the one mutation
    journalled is the phase write. *)
Theorem ceiling_forces_failed (host : Host) (fs : gmap string FileEntry)
    (sessionId directory : option string) (w : World)
    (state : AutopilotState) :
  store w !! or_default directory (cwd host) = Some state ->
  active state = true ->
  sessionMismatch state sessionId = false ->
  max_iterations state <= iteration state ->
  let (result, w') := checkAutopilot host fs sessionId directory w in
  result = Some (stoppedResult state) /\
  shouldBlock (stoppedResult state) = false /\
  result_phase (stoppedResult state) = failed /\
  store w' !! or_default directory (cwd host) = Some (set_phase failed state) /\
  phase (set_phase failed state) = failed /\
  journal w' = journal w ++ [MSetPhase (or_default directory (cwd host)) failed].
Proof.
  intros Hload Hactive Hbinding Hmax.
  rewrite (check_ceiling host fs sessionId directory w state) by done.
  repeat split. simpl. by rewrite lookup_alter_eq, Hload.
Qed.

Lemma ceiling_forces_failed_witness :
  let (result, w') :=
    checkAutopilot spec_host (transcript_with "EXECUTION_COMPLETE")
      (Some "s1") None (world_of (sample_state execution 50)) in
  result = Some (stoppedResult (sample_state execution 50)) /\
  shouldBlock (stoppedResult (sample_state execution 50)) = false /\
  result_phase (stoppedResult (sample_state execution 50)) = failed /\
  store w' !! "/w" = Some (set_phase failed (sample_state execution 50)) /\
  phase (set_phase failed (sample_state execution 50)) = failed /\
  journal w' = [MSetPhase "/w" failed].
Proof.
  apply (ceiling_forces_failed spec_host (transcript_with "EXECUTION_COMPLETE")
           (Some "s1") None (world_of (sample_state execution 50))
           (sample_state execution 50)).
  - reflexivity.
  - reflexivity.
  - reflexivity.
  - simpl. lia.
Defined.

(** ** Session binding *)

(** C6. When the record of the directory carries a session id and the caller
    gives a different one, check returns absent and the world it leaves is the
    world it found: the store is the same map and nothing was journalled.  An
    id is carried or given when it is a non-empty string, which is what the
    guard tests. *)
Theorem foreign_session_is_absent (host : Host) (fs : gmap string FileEntry)
    (directory : option string) (w : World) (state : AutopilotState)
    (bound caller : string) :
  store w !! or_default directory (cwd host) = Some state ->
  session_id state = Some bound ->
  bound <> "" ->
  caller <> "" ->
  caller <> bound ->
  checkAutopilot host fs (Some caller) directory w = (None, w).
Proof.
  intros Hload Hbound Hb Hc Hne.
  destruct (active state) eqn:Hactive.
  - apply (check_mismatch host fs (Some caller) directory w state Hload).
    unfold sessionMismatch. rewrite Hbound. simpl.
    apply String.eqb_neq in Hb, Hc. rewrite Hb, Hc. simpl.
    rewrite bool_decide_eq_false_2; [done|congruence].
  - by apply (check_inactive host fs (Some caller) directory w state).
Qed.

Lemma foreign_session_is_absent_witness :
  checkAutopilot spec_host (transcript_with "PLANNING_COMPLETE") (Some "s2")
    None (world_of (sample_state planning 3))
  = (None, world_of (sample_state planning 3)).
Proof.
  apply (foreign_session_is_absent spec_host
           (transcript_with "PLANNING_COMPLETE") None
           (world_of (sample_state planning 3)) (sample_state planning 3)
           "s1" "s2").
  - reflexivity.
  - reflexivity.
  - discriminate.
  - discriminate.
  - discriminate.
Defined.

(** C9. For an active record that carries a session id, in a phase other than
    complete and failed and below the ceiling, a call without a session id
    (none, or the empty string, which the guards treat alike) is not turned
    away by the binding and does not look for a signal: whatever the
    transcripts hold, it returns the continuation of the current phase with
    shouldBlock true, and persists the record with the iteration one higher
    and the phase as it was. *)
Theorem no_session_id_continues (host : Host) (fs : gmap string FileEntry)
    (sessionId directory : option string) (w : World)
    (state : AutopilotState) (bound : string) :
  store w !! or_default directory (cwd host) = Some state ->
  active state = true ->
  session_id state = Some bound ->
  truthy sessionId = false ->
  iteration state < max_iterations state ->
  phase state <> complete ->
  phase state <> failed ->
  let (result, w') := checkAutopilot host fs sessionId directory w in
  result = Some (continuationResult host (ticked state)) /\
  shouldBlock (continuationResult host (ticked state)) = true /\
  result_phase (continuationResult host (ticked state)) = phase state /\
  store w' !! or_default directory (cwd host) = Some (ticked state) /\
  phase (ticked state) = phase state /\
  iteration (ticked state) = iteration state + 1 /\
  journal w' = journal w ++ [MWrite (or_default directory (cwd host))].
Proof.
  intros Hload Hactive Hbound Hnone Hlt Hc Hf.
  assert (Hbinding : sessionMismatch state sessionId = false).
  { unfold sessionMismatch. rewrite Hnone. by rewrite andb_false_r. }
  assert (Hsig : signalDetected host fs state sessionId = None).
  { unfold signalDetected. rewrite Hnone.
    destruct (getExpectedSignalForPhase (phase state)), sessionId; done. }
  rewrite (check_below_ceiling host fs sessionId directory w state) by done.
  rewrite !bool_decide_eq_false_2 by done. rewrite Hsig.
  repeat split. simpl. by rewrite lookup_insert_eq.
Qed.

Lemma no_session_id_continues_witness :
  let (result, w') :=
    checkAutopilot spec_host (transcript_with "QA_COMPLETE") None None
      (world_of (sample_state qa 7)) in
  result = Some (continuationResult spec_host (ticked (sample_state qa 7))) /\
  shouldBlock (continuationResult spec_host (ticked (sample_state qa 7)))
    = true /\
  result_phase (continuationResult spec_host (ticked (sample_state qa 7)))
    = qa /\
  store w' !! "/w" = Some (ticked (sample_state qa 7)) /\
  phase (ticked (sample_state qa 7)) = qa /\
  iteration (ticked (sample_state qa 7)) = 7 + 1 /\
  journal w' = [MWrite "/w"].
Proof.
  apply (no_session_id_continues spec_host (transcript_with "QA_COMPLETE")
           None None (world_of (sample_state qa 7)) (sample_state qa 7) "s1").
  - reflexivity.
  - reflexivity.
  - reflexivity.
  - reflexivity.
  - simpl. lia.
  - discriminate.
  - discriminate.
Defined.

(** ** The signal-detected branch *)

Section PhaseCompleted.
Variable host : Host.
Variables (state : AutopilotState) (dir sid : string) (w : World).

Lemma phaseCompleted_simple nextPhase :
  store w !! dir = Some state ->
  phase state = expansion \/ phase state = planning ->
  getNextPhase (phase state) = Some nextPhase ->
  phaseCompleted host state dir sid w =
    (Some (continuationResult host (ticked (set_phase nextPhase state))),
     {| store := <[dir := ticked (set_phase nextPhase state)]>
                   (alter (set_phase nextPhase) dir (store w));
        journal := journal w ++ [MSetPhase dir nextPhase; MWrite dir] |}).
Proof.
  intros Hload Hphase Hnext. unfold phaseCompleted. rewrite Hnext.
  destruct Hphase as [Hp|Hp]; rewrite Hp in Hnext |- *;
    injection Hnext as <-; simpl; run_monad;
    rewrite lookup_alter_eq, Hload; simpl; by rewrite <- app_assoc.
Qed.

Lemma phaseCompleted_validation :
  phase state = validation ->
  phaseCompleted host state dir sid w =
    (Some completeResult,
     {| store := (transitionToComplete host dir (store w)).2;
        journal := journal w ++ [MComplete dir] |}).
Proof.
  intros Hp. unfold phaseCompleted. rewrite Hp. simpl. run_monad.
  by destruct (transitionToComplete host dir (store w)).
Qed.

(** A compound edge: the operation runs; on failure the stale record is
    continued, on success the reloaded one, if there is one. *)
Lemma phaseCompleted_compound tag op :
  (phase state = execution /\ tag = MRalphToUltraQA dir /\
   op = transitionRalphToUltraQA host dir sid) \/
  (phase state = qa /\ tag = MUltraQAToValidation dir /\
   op = transitionUltraQAToValidation host dir) ->
  phaseCompleted host state dir sid w =
    let (result, store') := op (store w) in
    if success result then
      match store' !! dir with
      | Some newState =>
          (Some (continuationResult host (ticked newState)),
           {| store := <[dir := ticked newState]> store';
              journal := journal w ++ [tag; MWrite dir] |})
      | None => (None, {| store := store'; journal := journal w ++ [tag] |})
      end
    else
      (Some (continuationResult host (ticked state)),
       {| store := <[dir := ticked state]> store';
          journal := journal w ++ [tag; MWrite dir] |}).
Proof.
  intros [(Hp & -> & ->)|(Hp & -> & ->)]; unfold phaseCompleted;
    rewrite Hp; simpl; run_monad.
  - destruct (transitionRalphToUltraQA host dir sid (store w))
      as [[[]] store']; simpl.
    + destruct (store' !! dir); simpl; by rewrite <- ?app_assoc.
    + by rewrite <- app_assoc.
  - destruct (transitionUltraQAToValidation host dir (store w))
      as [[[]] store']; simpl.
    + destruct (store' !! dir); simpl; by rewrite <- ?app_assoc.
    + by rewrite <- app_assoc.
Qed.
End PhaseCompleted.

(** A detected signal comes with a session id that was given. *)
Lemma signalDetected_Some host fs state sessionId sid :
  signalDetected host fs state sessionId = Some sid ->
  sessionId = Some sid /\ sid <> "" /\
  exists signal,
    getExpectedSignalForPhase (phase state) = Some signal /\
    detectSignal (homedir host) (join host) fs sid signal = true.
Proof.
  unfold signalDetected.
  destruct (getExpectedSignalForPhase (phase state)) as [signal|]; [|done].
  destruct sessionId as [s|]; [|done].
  destruct (truthy (Some s)) eqn:Ht; [|done]. simpl.
  destruct (detectSignal _ _ _ _ _) eqn:Hd; [|done].
  intros [= ->]. split; [done|]. split; [|by exists signal].
  intros ->. done.
Qed.

(** ** Continuation without a signal *)

(** C5, as the code has it.  For an active record in a phase other than
    complete and failed, whose calls pass the session-binding check and find
    no expected signal (none in the transcripts, or no session id to look
    with): after [n] calls in a row, each of them made below the ceiling, the
    persisted record is the first one with [n] added to its iteration and
    nothing else changed, so the phase is the same and every single call adds
    exactly 1; each call journals one record write. *)
Theorem no_signal_adds_one_per_call (host : Host)
    (fs : gmap string FileEntry) (sessionId directory : option string)
    (n : nat) (w : World) (state : AutopilotState) :
  store w !! or_default directory (cwd host) = Some state ->
  active state = true ->
  sessionMismatch state sessionId = false ->
  phase state <> complete ->
  phase state <> failed ->
  signalDetected host fs state sessionId = None ->
  iteration state + Z.of_nat n <= max_iterations state ->
  let w' := checkRepeatedly host fs n sessionId directory w in
  store w' !! or_default directory (cwd host)
    = Some (set_iteration (iteration state + Z.of_nat n) state) /\
  phase (set_iteration (iteration state + Z.of_nat n) state) = phase state /\
  iteration (set_iteration (iteration state + Z.of_nat n) state)
    = iteration state + Z.of_nat n /\
  journal w'
    = journal w ++ replicate n (MWrite (or_default directory (cwd host))).
Proof.
  revert w state. induction n as [|n IH]; intros w state
    Hload Hactive Hbinding Hc Hf Hsig Hmax; simpl.
  - rewrite Z.add_0_r, app_nil_r. by destruct state.
  - rewrite (check_below_ceiling host fs sessionId directory w state)
      by (done || lia).
    rewrite !bool_decide_eq_false_2 by done. rewrite Hsig. simpl.
    destruct (IH {| store := <[or_default directory (cwd host) := ticked state]>
                               (store w);
                    journal := journal w
                               ++ [MWrite (or_default directory (cwd host))] |}
                 (ticked state)) as (Hst & _ & _ & Hj);
      try done.
    + simpl. apply lookup_insert_eq.
    + simpl. lia.
    + split; [|split; [done|split; [done|]]].
      * rewrite Hst. f_equal. unfold ticked, set_iteration. simpl.
        f_equal. lia.
      * rewrite Hj. simpl. by rewrite <- app_assoc.
Qed.

Lemma no_signal_adds_one_per_call_witness :
  let w' :=
    checkRepeatedly spec_host (transcript_with "still working") 3 (Some "s1")
      None (world_of (sample_state planning 47)) in
  store w' !! "/w" = Some (set_iteration (47 + 3) (sample_state planning 47)) /\
  phase (set_iteration (47 + 3) (sample_state planning 47)) = planning /\
  iteration (set_iteration (47 + 3) (sample_state planning 47)) = 47 + 3 /\
  journal w' = [MWrite "/w"; MWrite "/w"; MWrite "/w"].
Proof.
  apply (no_signal_adds_one_per_call spec_host
           (transcript_with "still working") (Some "s1") None 3
           (world_of (sample_state planning 47)) (sample_state planning 47)).
  - reflexivity.
  - reflexivity.
  - reflexivity.
  - discriminate.
  - discriminate.
  - vm_compute. reflexivity.
  - simpl. lia.
Defined.

(** C5 as stated fails: an active record in phase planning, below the
    ceiling and bound to session s1, is checked by session s2 with no signal
    in any transcript; the call is turned away by the binding guard and the
    persisted iteration stays 3. *)
Lemma foreign_session_does_not_tick :
  let state := sample_state planning 3 in
  let w := world_of state in
  let code := checkAutopilot spec_host no_transcript (Some "s2") None w in
  active state = true /\
  iteration state < max_iterations state /\
  signalDetected spec_host no_transcript state (Some "s2") = None /\
  code.1 = None /\
  iteration <$> store code.2 !! "/w" = Some 3 /\
  iteration <$> store code.2 !! "/w" <> Some (3 + 1).
Proof. repeat split; by vm_compute. Qed.

(** ** Compound transitions *)

(** C4. For an active record in phase execution or qa whose call reaches
    signal detection and detects the expected signal: when the compound
    transition operation of that phase reports failure, check returns the
    continuation of the current phase (shouldBlock true, the phase of the
    record, the prompt composed for that phase), not absent and not an error,
    and the persisted record is the one that was loaded with its iteration
    counted up, so its phase is unchanged whatever the failed operation left
    in the store. *)
Theorem failed_compound_keeps_phase (host : Host)
    (fs : gmap string FileEntry) (sessionId directory : option string)
    (w : World) (state : AutopilotState) (sid : string) :
  store w !! or_default directory (cwd host) = Some state ->
  active state = true ->
  sessionMismatch state sessionId = false ->
  iteration state < max_iterations state ->
  signalDetected host fs state sessionId = Some sid ->
  (phase state = execution /\
   success (transitionRalphToUltraQA host (or_default directory (cwd host))
              sid (store w)).1 = false) \/
  (phase state = qa /\
   success (transitionUltraQAToValidation host
              (or_default directory (cwd host)) (store w)).1 = false) ->
  let (result, w') := checkAutopilot host fs sessionId directory w in
  result = Some (continuationResult host (ticked state)) /\
  shouldBlock (continuationResult host (ticked state)) = true /\
  result_phase (continuationResult host (ticked state)) = phase state /\
  message (continuationResult host (ticked state))
    = continuationPrompt (ticked state)
        (getPhasePrompt host (phase state) (originalIdea state)
           (or_default (spec_path (expansion_block state))
              ".omc/autopilot/spec.md")
           (or_default (plan_path (planning_block state))
              ".omc/plans/autopilot-impl.md")) /\
  store w' !! or_default directory (cwd host) = Some (ticked state) /\
  phase (ticked state) = phase state.
Proof.
  intros Hload Hactive Hbinding Hlt Hsig Hfail.
  rewrite (check_below_ceiling host fs sessionId directory w state) by done.
  rewrite Hsig.
  destruct Hfail as [[Hp Hfail]|[Hp Hfail]].
  - rewrite !bool_decide_eq_false_2 by congruence.
    rewrite (phaseCompleted_compound host state _ sid w
               (MRalphToUltraQA (or_default directory (cwd host)))
               (transitionRalphToUltraQA host
                  (or_default directory (cwd host)) sid))
      by (left; done).
    destruct (transitionRalphToUltraQA host _ sid (store w))
      as [result store']. simpl in Hfail. rewrite Hfail.
    repeat split. simpl. apply lookup_insert_eq.
  - rewrite !bool_decide_eq_false_2 by congruence.
    rewrite (phaseCompleted_compound host state _ sid w
               (MUltraQAToValidation (or_default directory (cwd host)))
               (transitionUltraQAToValidation host
                  (or_default directory (cwd host))))
      by (right; done).
    destruct (transitionUltraQAToValidation host _ (store w))
      as [result store']. simpl in Hfail. rewrite Hfail.
    repeat split. simpl. apply lookup_insert_eq.
Qed.

Lemma failed_compound_keeps_phase_witness :
  let (result, w') :=
    checkAutopilot failing_host (transcript_with "EXECUTION_COMPLETE")
      (Some "s1") None (world_of (sample_state execution 3)) in
  result
    = Some (continuationResult failing_host
              (ticked (sample_state execution 3))) /\
  shouldBlock (continuationResult failing_host
                 (ticked (sample_state execution 3))) = true /\
  result_phase (continuationResult failing_host
                  (ticked (sample_state execution 3))) = execution /\
  message (continuationResult failing_host
             (ticked (sample_state execution 3)))
    = continuationPrompt (ticked (sample_state execution 3))
        (sample_prompt execution "a todo app" ".omc/autopilot/spec.md"
           ".omc/plans/autopilot-impl.md") /\
  store w' !! "/w" = Some (ticked (sample_state execution 3)) /\
  phase (ticked (sample_state execution 3)) = execution.
Proof.
  apply (failed_compound_keeps_phase failing_host
           (transcript_with "EXECUTION_COMPLETE") (Some "s1") None
           (world_of (sample_state execution 3)) (sample_state execution 3)
           "s1").
  - reflexivity.
  - reflexivity.
  - reflexivity.
  - simpl. lia.
  - vm_compute. reflexivity.
  - left. split; reflexivity.
Defined.

(** C3, as the code has it.  Record in phase execution, iteration 3,
    max_iterations 50, bound to session s1; the transcript of s1 holds
    EXECUTION_COMPLETE; the execution-to-qa operation reports success and
    leaves a record in phase qa.  Then the persisted phase is qa and the
    result has shouldBlock true and phase qa, and its iteration is the
    reloaded record's iteration plus one: with the counter left alone by the
    operation that is 4, the count going on across the phase boundary. *)
Theorem execution_to_qa_keeps_counting (host : Host)
    (fs : gmap string FileEntry) (directory : option string) (w : World)
    (state reloaded : AutopilotState) :
  store w !! or_default directory (cwd host) = Some state ->
  active state = true ->
  phase state = execution ->
  iteration state = 3 ->
  max_iterations state = 50 ->
  session_id state = Some "s1" ->
  detectSignal (homedir host) (join host) fs "s1" EXECUTION_COMPLETE = true ->
  success (transitionRalphToUltraQA host (or_default directory (cwd host))
             "s1" (store w)).1 = true ->
  (transitionRalphToUltraQA host (or_default directory (cwd host))
     "s1" (store w)).2 !! or_default directory (cwd host) = Some reloaded ->
  phase reloaded = qa ->
  let (result, w') := checkAutopilot host fs (Some "s1") directory w in
  result = Some (continuationResult host (ticked reloaded)) /\
  shouldBlock (continuationResult host (ticked reloaded)) = true /\
  result_phase (continuationResult host (ticked reloaded)) = qa /\
  (meta_iteration <$> metadata (continuationResult host (ticked reloaded)))
    = Some (iteration reloaded + 1) /\
  (iteration reloaded = iteration state ->
   (meta_iteration <$> metadata (continuationResult host (ticked reloaded)))
     = Some 4) /\
  (phase <$> store w' !! or_default directory (cwd host)) = Some qa.
Proof.
  intros Hload Hactive Hp Hit Hmax Hsid Hdet Hok Hre Hq.
  assert (Hbinding : sessionMismatch state (Some "s1") = false).
  { unfold sessionMismatch. rewrite Hsid. reflexivity. }
  assert (Hsig : signalDetected host fs state (Some "s1") = Some "s1").
  { unfold signalDetected. rewrite Hp. simpl. by rewrite Hdet. }
  rewrite (check_below_ceiling host fs (Some "s1") directory w state)
    by (done || lia).
  rewrite !bool_decide_eq_false_2 by congruence. rewrite Hsig.
  rewrite (phaseCompleted_compound host state _ "s1" w
             (MRalphToUltraQA (or_default directory (cwd host)))
             (transitionRalphToUltraQA host
                (or_default directory (cwd host)) "s1"))
    by (left; done).
  destruct (transitionRalphToUltraQA host _ "s1" (store w))
    as [result store']. simpl in Hok, Hre. rewrite Hok, Hre.
  split; [done|]. split; [done|]. split; [done|]. split; [done|].
  split.
  - intros Heq. simpl. rewrite Heq, Hit. done.
  - simpl. rewrite lookup_insert_eq. simpl. by rewrite Hq.
Qed.

Lemma execution_to_qa_keeps_counting_witness :
  let (result, w') :=
    checkAutopilot spec_host (transcript_with "EXECUTION_COMPLETE")
      (Some "s1") None (world_of (sample_state execution 3)) in
  let reloaded := set_phase qa (sample_state execution 3) in
  result = Some (continuationResult spec_host (ticked reloaded)) /\
  shouldBlock (continuationResult spec_host (ticked reloaded)) = true /\
  result_phase (continuationResult spec_host (ticked reloaded)) = qa /\
  (meta_iteration <$> metadata (continuationResult spec_host (ticked reloaded)))
    = Some (3 + 1) /\
  (3 = 3 ->
   (meta_iteration <$> metadata (continuationResult spec_host (ticked reloaded)))
     = Some 4) /\
  (phase <$> store w' !! "/w") = Some qa.
Proof.
  apply (execution_to_qa_keeps_counting spec_host
           (transcript_with "EXECUTION_COMPLETE") None
           (world_of (sample_state execution 3)) (sample_state execution 3)
           (set_phase qa (sample_state execution 3))).
  - reflexivity.
  - reflexivity.
  - reflexivity.
  - reflexivity.
  - reflexivity.
  - reflexivity.
  - vm_compute. reflexivity.
  - reflexivity.
  - reflexivity.
  - reflexivity.
Defined.

(** C3 as stated fails: in the scenario, with the execution-to-qa operation
    of the spec (phase set to qa, iteration untouched), the persisted phase
    is qa and the result has shouldBlock true and phase qa, but its iteration
    is 4 and not 1. *)
Lemma execution_to_qa_iteration_is_not_1 :
  let fs := transcript_with "EXECUTION_COMPLETE" in
  let w := world_of (sample_state execution 3) in
  let (result, w') := checkAutopilot spec_host fs (Some "s1") None w in
  detectSignal (homedir spec_host) (join spec_host) fs "s1" EXECUTION_COMPLETE
    = true /\
  success (transitionRalphToUltraQA spec_host "/w" "s1" (store w)).1 = true /\
  (phase <$> store w' !! "/w") = Some qa /\
  (shouldBlock <$> result) = Some true /\
  (result_phase <$> result) = Some qa /\
  (meta_iteration <$> (result ≫= metadata)) = Some 4 /\
  (meta_iteration <$> (result ≫= metadata)) <> Some 1.
Proof. vm_compute. repeat split; discriminate. Qed.

(** ** Simple edges: what is continued after the phase write *)

(** C2, as the code has it.  For an active record that passes the binding
    check below the ceiling, in phase expansion or planning (the simple
    edges), with the expected signal detected: check writes the successor
    phase, reloads the record and returns the plain continuation of the
    reloaded record (iteration counted up, shouldBlock true, the new phase);
    it journals the phase write and the record write and nothing else, and
    does not run the guards or the signal detection again.  That is what a
    re-run of the whole decision gives too whenever the new phase's own
    expected signal is not detected. *)
Theorem simple_edge_continues_reloaded (host : Host)
    (fs : gmap string FileEntry) (sessionId directory : option string)
    (w : World) (state : AutopilotState) (sid : string)
    (nextPhase : AutopilotPhase) :
  store w !! or_default directory (cwd host) = Some state ->
  active state = true ->
  sessionMismatch state sessionId = false ->
  iteration state < max_iterations state ->
  phase state = expansion \/ phase state = planning ->
  getNextPhase (phase state) = Some nextPhase ->
  signalDetected host fs state sessionId = Some sid ->
  checkAutopilot host fs sessionId directory w =
    (Some (continuationResult host (ticked (set_phase nextPhase state))),
     {| store := <[or_default directory (cwd host)
                   := ticked (set_phase nextPhase state)]>
                   (alter (set_phase nextPhase)
                      (or_default directory (cwd host)) (store w));
        journal := journal w
                   ++ [MSetPhase (or_default directory (cwd host)) nextPhase;
                       MWrite (or_default directory (cwd host))] |}) /\
  result_phase (continuationResult host (ticked (set_phase nextPhase state)))
    = nextPhase /\
  (signalDetected host fs (set_phase nextPhase state) sessionId = None ->
   forall fuel,
     check_spec host fs (S (S fuel)) sessionId directory w =
       (Some (checkAutopilot host fs sessionId directory w).1,
        (checkAutopilot host fs sessionId directory w).2)).
Proof.
  intros Hload Hactive Hbinding Hlt Hphase Hnext Hsig.
  assert (Hcode : checkAutopilot host fs sessionId directory w =
    (Some (continuationResult host (ticked (set_phase nextPhase state))),
     {| store := <[or_default directory (cwd host)
                   := ticked (set_phase nextPhase state)]>
                   (alter (set_phase nextPhase)
                      (or_default directory (cwd host)) (store w));
        journal := journal w
                   ++ [MSetPhase (or_default directory (cwd host)) nextPhase;
                       MWrite (or_default directory (cwd host))] |})).
  { rewrite (check_below_ceiling host fs sessionId directory w state) by done.
    rewrite !bool_decide_eq_false_2 by (destruct Hphase; congruence).
    rewrite Hsig.
    by rewrite (phaseCompleted_simple host state _ sid w nextPhase). }
  split; [done|]. split; [done|].
  intros Hquiet fuel. rewrite Hcode. simpl.
  assert (Hnext' : nextPhase = planning \/ nextPhase = execution).
  { destruct Hphase as [Hp|Hp]; rewrite Hp in Hnext; injection Hnext as <-;
      [by left|by right]. }
  unfold check_spec. cbn [decision_spec]. run_monad.
  rewrite Hload, Hactive, Hbinding. simpl.
  rewrite bool_decide_eq_false_2 by lia.
  rewrite !bool_decide_eq_false_2 by (destruct Hphase; congruence).
  rewrite Hsig, Hnext.
  rewrite !bool_decide_eq_false_2
    by (destruct Hphase, Hnext'; congruence).
  rewrite lookup_alter_eq, Hload. simpl. rewrite Hactive.
  change (sessionMismatch (set_phase nextPhase state) sessionId)
    with (sessionMismatch state sessionId).
  rewrite Hbinding. simpl.
  rewrite bool_decide_eq_false_2 by lia.
  rewrite !bool_decide_eq_false_2 by (destruct Hnext'; congruence).
  rewrite Hquiet. simpl. by rewrite <- app_assoc.
Qed.

Lemma simple_edge_continues_reloaded_witness :
  let fs := transcript_with "PLANNING_COMPLETE" in
  let w := world_of (sample_state planning 3) in
  let reloaded := set_phase execution (sample_state planning 3) in
  checkAutopilot spec_host fs (Some "s1") None w =
    (Some (continuationResult spec_host (ticked reloaded)),
     {| store := <["/w" := ticked reloaded]>
                   (alter (set_phase execution) "/w" (store w));
        journal := [MSetPhase "/w" execution; MWrite "/w"] |}) /\
  result_phase (continuationResult spec_host (ticked reloaded)) = execution /\
  (signalDetected spec_host fs reloaded (Some "s1") = None ->
   forall fuel,
     check_spec spec_host fs (S (S fuel)) (Some "s1") None w =
       (Some (checkAutopilot spec_host fs (Some "s1") None w).1,
        (checkAutopilot spec_host fs (Some "s1") None w).2)).
Proof.
  apply (simple_edge_continues_reloaded spec_host
           (transcript_with "PLANNING_COMPLETE") (Some "s1") None
           (world_of (sample_state planning 3)) (sample_state planning 3)
           "s1" execution).
  - reflexivity.
  - reflexivity.
  - reflexivity.
  - simpl. lia.
  - right. reflexivity.
  - reflexivity.
  - vm_compute. reflexivity.
Defined.

(** C2 as stated fails: with both EXPANSION_COMPLETE and PLANNING_COMPLETE in
    the transcript, a record in phase expansion is taken to planning and the
    continuation returned is the one of planning, while the whole decision
    run again on the reloaded record detects PLANNING_COMPLETE and goes on to
    execution.  Whatever the bound on re-runs, the two do not agree. *)
Lemma simple_edge_is_not_a_rerun :
  let fs := transcript_with "EXPANSION_COMPLETE, PLANNING_COMPLETE" in
  let w := world_of (sample_state expansion 3) in
  let code := checkAutopilot spec_host fs (Some "s1") None w in
  let rerun := check_spec spec_host fs 3 (Some "s1") None w in
  returned_phase code.1 = Some planning /\
  persisted_phase code.2 "/w" = Some planning /\
  returned_phase <$> rerun.1 = Some (Some execution) /\
  persisted_phase rerun.2 "/w" = Some execution /\
  (forall fuel,
     (check_spec spec_host fs fuel (Some "s1") None w).1 <> Some code.1).
Proof.
  split; [by vm_compute|]. split; [by vm_compute|].
  split; [by vm_compute|]. split; [by vm_compute|].
  intros [|[|[|fuel]]]; vm_compute; discriminate.
Qed.

(** ** How often a check mutates persisted state *)

Lemma mutations_app w evs (st : gmap string AutopilotState) :
  mutations w {| store := st; journal := journal w ++ evs |} = List.length evs.
Proof. unfold mutations. simpl. rewrite length_app. lia. Qed.

Lemma mutations_none w : mutations w w = 0%nat.
Proof. unfold mutations. lia. Qed.

(** C7, as the code has it.  A check that gets past the active and binding
    guards returns a result, and the mutating calls it journals are: one at
    the ceiling (the phase write); none on the complete and failed
    short-circuits, which leave the world as it was; one on a continuation
    without a signal (the record write); one when the signal of validation is
    detected (the finalize operation); and two when the signal of expansion,
    planning, execution or qa is detected (the phase write or the compound
    operation, then the record write of the continuation). *)
Theorem mutations_by_branch (host : Host) (fs : gmap string FileEntry)
    (sessionId directory : option string) (w : World)
    (state : AutopilotState) :
  store w !! or_default directory (cwd host) = Some state ->
  active state = true ->
  sessionMismatch state sessionId = false ->
  let (result, w') := checkAutopilot host fs sessionId directory w in
  is_Some result /\
  (max_iterations state <= iteration state -> mutations w w' = 1%nat) /\
  (iteration state < max_iterations state ->
   phase state = complete \/ phase state = failed ->
   mutations w w' = 0%nat /\ w' = w) /\
  (iteration state < max_iterations state ->
   phase state <> complete -> phase state <> failed ->
   signalDetected host fs state sessionId = None ->
   mutations w w' = 1%nat) /\
  (iteration state < max_iterations state ->
   phase state = validation ->
   is_Some (signalDetected host fs state sessionId) ->
   mutations w w' = 1%nat) /\
  (iteration state < max_iterations state ->
   phase state = expansion \/ phase state = planning \/
   phase state = execution \/ phase state = qa ->
   is_Some (signalDetected host fs state sessionId) ->
   mutations w w' = 2%nat).
Proof.
  intros Hload Hactive Hbinding.
  destruct (decide (max_iterations state <= iteration state)) as [Hmax|Hlt].
  { rewrite (check_ceiling host fs sessionId directory w state) by done.
    split; [done|]. split; [intros _; apply mutations_app|].
    repeat split; intros; lia. }
  apply Z.nle_gt in Hlt.
  rewrite (check_below_ceiling host fs sessionId directory w state) by done.
  destruct (decide (phase state = complete)) as [Hc|Hc].
  { rewrite bool_decide_eq_true_2 by done. split; [done|].
    split; [lia|]. split; [intros; split; [apply mutations_none|done]|].
    rewrite Hc. repeat split; intros; try done.
    match goal with H : _ \/ _ |- _ => by destruct H as [|[|[|]]] end. }
  destruct (decide (phase state = failed)) as [Hf|Hf].
  { rewrite bool_decide_eq_false_2, bool_decide_eq_true_2 by done.
    split; [done|].
    split; [lia|]. split; [intros; split; [apply mutations_none|done]|].
    rewrite Hf. repeat split; intros; try done.
    match goal with H : _ \/ _ |- _ => by destruct H as [|[|[|]]] end. }
  rewrite !bool_decide_eq_false_2 by done.
  destruct (signalDetected host fs state sessionId) as [sid|] eqn:Hsig.
  - assert (Hno : ~ is_Some (@None string)) by (intros [? ?]; done).
    destruct (phase state) eqn:Hp; try done.
    + rewrite (phaseCompleted_simple host state _ sid w planning)
        by (done || (left; done) || by rewrite Hp).
      split; [done|]. split; [lia|]. split; [by intros _ [|]|].
      split; [done|]. split; [done|]. intros. apply mutations_app.
    + rewrite (phaseCompleted_simple host state _ sid w execution)
        by (done || (right; done) || by rewrite Hp).
      split; [done|]. split; [lia|]. split; [by intros _ [|]|].
      split; [done|]. split; [done|]. intros. apply mutations_app.
    + rewrite (phaseCompleted_compound host state _ sid w
                 (MRalphToUltraQA (or_default directory (cwd host)))
                 (transitionRalphToUltraQA host
                    (or_default directory (cwd host)) sid))
        by (left; done).
      destruct (transitionRalphToUltraQA host _ sid (store w))
        as [[[]] store']; [destruct (store' !! _)|];
        (split; [done|]); (split; [lia|]); (split; [by intros _ [|]|]);
        (split; [done|]); (split; [done|]); intros; simpl;
        rewrite <- ?app_assoc; apply mutations_app.
    + rewrite (phaseCompleted_compound host state _ sid w
                 (MUltraQAToValidation (or_default directory (cwd host)))
                 (transitionUltraQAToValidation host
                    (or_default directory (cwd host))))
        by (right; done).
      destruct (transitionUltraQAToValidation host _ (store w))
        as [[[]] store']; [destruct (store' !! _)|];
        (split; [done|]); (split; [lia|]); (split; [by intros _ [|]|]);
        (split; [done|]); (split; [done|]); intros; simpl;
        rewrite <- ?app_assoc; apply mutations_app.
    + rewrite (phaseCompleted_validation host state _ sid w) by done.
      split; [done|]. split; [lia|]. split; [by intros _ [|]|].
      split; [done|]. split; [intros; apply mutations_app|].
      by intros _ [|[|[|]]].
  - assert (Hno : ~ is_Some (@None string)) by (intros [? ?]; done).
    split; [done|]. split; [lia|]. split; [by intros _ [|]|].
    split; [intros; apply mutations_app|]. split; intros; by exfalso.
Qed.

Lemma mutations_by_branch_witness :
  let w := world_of (sample_state failed 3) in
  let (result, w') :=
    checkAutopilot spec_host no_transcript (Some "s1") None w in
  is_Some result /\
  (50 <= 3 -> mutations w w' = 1%nat) /\
  (3 < 50 -> failed = complete \/ failed = failed ->
   mutations w w' = 0%nat /\ w' = w) /\
  (3 < 50 -> failed <> complete -> failed <> failed ->
   signalDetected spec_host no_transcript (sample_state failed 3) (Some "s1")
     = None ->
   mutations w w' = 1%nat) /\
  (3 < 50 -> failed = validation ->
   is_Some (signalDetected spec_host no_transcript (sample_state failed 3)
              (Some "s1")) ->
   mutations w w' = 1%nat) /\
  (3 < 50 ->
   failed = expansion \/ failed = planning \/
   failed = execution \/ failed = qa ->
   is_Some (signalDetected spec_host no_transcript (sample_state failed 3)
              (Some "s1")) ->
   mutations w w' = 2%nat).
Proof.
  apply (mutations_by_branch spec_host no_transcript (Some "s1") None
           (world_of (sample_state failed 3)) (sample_state failed 3)).
  - reflexivity.
  - reflexivity.
  - reflexivity.
Defined.

(** C7 as stated fails: on a record already in phase complete, and on one
    already in phase failed, check returns its notice and mutates nothing;
    and when PLANNING_COMPLETE is detected in phase planning it mutates
    twice. *)
Lemma short_circuits_do_not_mutate :
  let wc := world_of (sample_state complete 3) in
  let wf := world_of (sample_state failed 3) in
  let wp := world_of (sample_state planning 3) in
  let fs := transcript_with "PLANNING_COMPLETE" in
  checkAutopilot spec_host fs (Some "s1") None wc = (Some completeResult, wc) /\
  mutations wc (checkAutopilot spec_host fs (Some "s1") None wc).2 = 0%nat /\
  checkAutopilot spec_host fs (Some "s1") None wf = (Some failedResult, wf) /\
  mutations wf (checkAutopilot spec_host fs (Some "s1") None wf).2 = 0%nat /\
  journal (checkAutopilot spec_host fs (Some "s1") None wp).2
    = [MSetPhase "/w" execution; MWrite "/w"] /\
  mutations wp (checkAutopilot spec_host fs (Some "s1") None wp).2 = 2%nat.
Proof. repeat split; by vm_compute. Qed.

(** ** Blocking and the phase of the result *)

Lemma continuation_blocks host state :
  shouldBlock (continuationResult host (ticked state)) = true /\
  result_phase (continuationResult host (ticked state)) = phase state.
Proof. done. Qed.

Lemma spec_host_advances : compound_success_advances spec_host.
Proof.
  split; simpl; unfold specTransition.
  - intros dir _ st s. destruct (st !! dir) as [s0|] eqn:Hs; [|done].
    case_bool_decide; [|done]. simpl. rewrite lookup_insert_eq.
    by intros _ [= <-].
  - intros dir st s. destruct (st !! dir) as [s0|] eqn:Hs; [|done].
    case_bool_decide; [|done]. simpl. rewrite lookup_insert_eq.
    by intros _ [= <-].
Qed.

(** C10. With compound operations that leave the record in the successor
    phase when they report success, every result check returns has
    shouldBlock false if and only if its phase is complete or failed: a
    result in one of the five working phases blocks, a result in a terminal
    phase does not. *)
Theorem blocks_iff_phase_not_terminal (host : Host)
    (fs : gmap string FileEntry) (sessionId directory : option string)
    (w w' : World) (result : AutopilotEnforcementResult) :
  compound_success_advances host ->
  checkAutopilot host fs sessionId directory w = (Some result, w') ->
  (shouldBlock result = false <->
   result_phase result = complete \/ result_phase result = failed) /\
  (result_phase result ∈ [expansion; planning; execution; qa; validation] ->
   shouldBlock result = true) /\
  (result_phase result = complete \/ result_phase result = failed ->
   shouldBlock result = false).
Proof.
  intros [Hqa Hval] Hcheck.
  assert (Hiff : shouldBlock result = false <->
                 result_phase result = complete \/ result_phase result = failed).
  { destruct (store w !! or_default directory (cwd host)) as [state|] eqn:Hload;
      [|by rewrite (check_absent host fs sessionId directory w) in Hcheck].
    destruct (active state) eqn:Hactive;
      [|by rewrite (check_inactive host fs sessionId directory w state)
          in Hcheck].
    destruct (sessionMismatch state sessionId) eqn:Hbinding;
      [by rewrite (check_mismatch host fs sessionId directory w state)
          in Hcheck|].
    destruct (decide (max_iterations state <= iteration state)) as [Hmax|Hlt].
    { rewrite (check_ceiling host fs sessionId directory w state) in Hcheck
        by done.
      injection Hcheck as <- _. simpl. split; [by right|done]. }
    apply Z.nle_gt in Hlt.
    rewrite (check_below_ceiling host fs sessionId directory w state)
      in Hcheck by done.
    assert (Hcont : forall s, phase s <> complete -> phase s <> failed ->
      shouldBlock (continuationResult host (ticked s)) = false <->
      result_phase (continuationResult host (ticked s)) = complete \/
      result_phase (continuationResult host (ticked s)) = failed).
    { intros s Hc Hf. simpl. split; [done|]. by intros [|]. }
    case_bool_decide as Hc.
    { injection Hcheck as <- _. simpl. split; [by left|done]. }
    case_bool_decide as Hf.
    { injection Hcheck as <- _. simpl. split; [by right|done]. }
    destruct (signalDetected host fs state sessionId) as [sid|] eqn:Hsig;
      [|injection Hcheck as <- _; by apply Hcont].
    destruct (phase state) eqn:Hp; try done.
    - rewrite (phaseCompleted_simple host state _ sid w planning) in Hcheck
        by (done || (left; done) || by rewrite Hp).
      injection Hcheck as <- _. by apply Hcont.
    - rewrite (phaseCompleted_simple host state _ sid w execution) in Hcheck
        by (done || (right; done) || by rewrite Hp).
      injection Hcheck as <- _. by apply Hcont.
    - rewrite (phaseCompleted_compound host state _ sid w
                 (MRalphToUltraQA (or_default directory (cwd host)))
                 (transitionRalphToUltraQA host
                    (or_default directory (cwd host)) sid))
        in Hcheck by (left; done).
      specialize (Hqa (or_default directory (cwd host)) sid (store w)).
      destruct (transitionRalphToUltraQA host _ sid (store w))
        as [[[]] store']; simpl in Hqa, Hval, Hcheck |- *.
      + destruct (store' !! _) as [s|] eqn:Hs; injection Hcheck as <- _.
        * apply Hcont; rewrite (Hqa s eq_refl eq_refl); done.
        * apply Hcont; by rewrite Hp.
      + injection Hcheck as <- _. apply Hcont; by rewrite Hp.
    - rewrite (phaseCompleted_compound host state _ sid w
                 (MUltraQAToValidation (or_default directory (cwd host)))
                 (transitionUltraQAToValidation host
                    (or_default directory (cwd host))))
        in Hcheck by (right; done).
      specialize (Hval (or_default directory (cwd host)) (store w)).
      destruct (transitionUltraQAToValidation host _ (store w))
        as [[[]] store']; simpl in Hqa, Hval, Hcheck |- *.
      + destruct (store' !! _) as [s|] eqn:Hs; injection Hcheck as <- _.
        * apply Hcont; rewrite (Hval s eq_refl eq_refl); done.
        * apply Hcont; by rewrite Hp.
      + injection Hcheck as <- _. apply Hcont; by rewrite Hp.
    - rewrite (phaseCompleted_validation host state _ sid w) in Hcheck by done.
      injection Hcheck as <- _. simpl. split; [by left|done]. }
  split; [done|]. split.
  - intros Hin. destruct (shouldBlock result); [done|].
    destruct Hiff as [Hiff _]. specialize (Hiff eq_refl).
    destruct Hiff as [Hr|Hr]; rewrite Hr in Hin;
      repeat (apply elem_of_cons in Hin as [Hin|Hin]; [done|]);
      by apply elem_of_nil in Hin.
  - apply Hiff.
Qed.

Lemma blocks_iff_phase_not_terminal_witness :
  let r := continuationResult spec_host
             (ticked (set_phase validation (sample_state qa 3))) in
  (shouldBlock r = false <->
   result_phase r = complete \/ result_phase r = failed) /\
  (result_phase r ∈ [expansion; planning; execution; qa; validation] ->
   shouldBlock r = true) /\
  (result_phase r = complete \/ result_phase r = failed ->
   shouldBlock r = false).
Proof.
  apply (blocks_iff_phase_not_terminal spec_host
           (transcript_with "QA_COMPLETE") (Some "s1") None
           (world_of (sample_state qa 3))
           (checkAutopilot spec_host (transcript_with "QA_COMPLETE")
              (Some "s1") None (world_of (sample_state qa 3))).2).
  - exact spec_host_advances.
  - vm_compute. reflexivity.
Defined.

(** ** More on signal detection *)

Lemma string_app_assoc (a b c : string) :
  (a +:+ b) +:+ c = a +:+ (b +:+ c).
Proof.
  induction a as [|x a IH]; [done|].
  change (String x ((a +:+ b) +:+ c) = String x (a +:+ (b +:+ c))).
  by rewrite IH.
Qed.

Lemma toUpperCase_app (a b : string) :
  toUpperCase (a +:+ b) = toUpperCase a +:+ toUpperCase b.
Proof.
  induction a as [|x a IH]; [done|].
  change (String (canonicalize x) (toUpperCase (a +:+ b))
          = String (canonicalize x) (toUpperCase a +:+ toUpperCase b)).
  by rewrite IH.
Qed.

Lemma canonicalize_idemp (c : ascii) :
  canonicalize (canonicalize c) = canonicalize c.
Proof. by destruct c as [[] [] [] [] [] [] [] []]. Qed.

Lemma contains_marker_grow pat text before after :
  contains_marker pat text ->
  contains_marker pat (before +:+ text +:+ after).
Proof.
  intros (b & mid & a & -> & Hup).
  exists (before +:+ b), mid, (a +:+ after). split; [|done].
  by rewrite !string_app_assoc.
Qed.

Lemma contains_marker_upto_case pat t1 t2 :
  toUpperCase t1 = toUpperCase t2 ->
  contains_marker pat t1 -> contains_marker pat t2.
Proof.
  intros Heq (b & mid & a & -> & Hup). revert t2 Heq.
  induction b as [|x b IH]; intros t2 Heq.
  - simpl in Heq. revert t2 pat Hup Heq.
    induction mid as [|y mid IHm]; intros t2 pat Hup Heq.
    + exists "", "", t2. done.
    + destruct t2 as [|z t2]; [done|]. simpl in Heq.
      injection Heq as Hz Heq.
      destruct pat as [|p pat]; [done|]. simpl in Hup.
      injection Hup as Hp Hup.
      destruct (IHm t2 pat Hup Heq) as (b' & mid' & a' & Ht & Hup').
      (* the match found in the tail starts at its head *)
      assert (Hhead : exists mid2 a2,
                t2 = mid2 +:+ a2 /\ toUpperCase mid2 = toUpperCase pat).
      { clear -Hup Heq. revert t2 pat Hup Heq.
        induction mid as [|y mid IHm]; intros t2 pat Hup Heq.
        - exists "", t2. simpl in Hup. by destruct pat.
        - destruct t2 as [|z t2]; [done|]. simpl in Heq.
          injection Heq as Hz Heq.
          destruct pat as [|p pat]; [done|]. simpl in Hup.
          injection Hup as Hp Hup.
          destruct (IHm t2 pat Hup Heq) as (mid2 & a2 & -> & Hm).
          exists (String z mid2), a2. simpl. split; [done|].
          by rewrite Hm, <- Hz, Hp. }
      destruct Hhead as (mid2 & a2 & -> & Hm).
      exists "", (String z mid2), a2. simpl. split; [done|].
      by rewrite Hm, <- Hz, Hp.
  - destruct t2 as [|z t2]; [done|]. simpl in Heq.
    injection Heq as Hz Heq.
    destruct (IH t2 Heq) as (b' & mid' & a' & -> & Hup').
    exists (String z b'), mid', a'. done.
Qed.

(** X1. Letter case of the transcripts does not matter: two file maps that
    hold, path by path, the same entries up to the case of their text give
    the same answer for every session and signal. *)
Theorem detectSignal_ignores_case (homedir : string)
    (join : list string -> string) (fs1 fs2 : gmap string FileEntry)
    (sessionId : string) (signal : AutopilotSignal) :
  (forall path, same_upto_case (fs1 !! path) (fs2 !! path)) ->
  detectSignal homedir join fs1 sessionId signal
  = detectSignal homedir join fs2 sessionId signal.
Proof.
  intros Hsame. unfold detectSignal. rewrite pattern_of_marker.
  apply eq_true_iff_eq. rewrite !scanPaths_spec.
  split; intros (path & content & Hin & Hl & Ht); specialize (Hsame path);
    rewrite Hl in Hsame; unfold same_upto_case in Hsame.
  - destruct (fs2 !! path) as [[t2|]|] eqn:H2; try done.
    exists path, t2. split; [done|]. split; [done|].
    apply regexp_test_spec. apply regexp_test_spec in Ht.
    by apply (contains_marker_upto_case _ content).
  - destruct (fs1 !! path) as [[t1|]|] eqn:H1; try done.
    exists path, t1. split; [done|]. split; [done|].
    apply regexp_test_spec. apply regexp_test_spec in Ht.
    by apply (contains_marker_upto_case _ content).
Qed.

Lemma detectSignal_ignores_case_witness :
  detectSignal "/home/u" slash_join (transcript_with "Qa_Complete") "s1"
    QA_COMPLETE
  = detectSignal "/home/u" slash_join (transcript_with "qa_complete") "s1"
      QA_COMPLETE.
Proof.
  apply (detectSignal_ignores_case "/home/u" slash_join
           (transcript_with "Qa_Complete") (transcript_with "qa_complete")
           "s1" QA_COMPLETE).
  intros path. unfold transcript_with.
  destruct (decide (path = s1_transcript)) as [->|Hne].
  - rewrite !lookup_singleton_eq. reflexivity.
  - rewrite !lookup_singleton_ne by done. exact I.
Defined.

(** X2. A detected signal stays detected while transcripts only grow: if
    every text readable before is still readable with text added before or
    after it, a signal detected before is detected afterwards. *)
Theorem detectSignal_survives_growth (homedir : string)
    (join : list string -> string) (fs fs' : gmap string FileEntry)
    (sessionId : string) (signal : AutopilotSignal) :
  transcripts_grow fs fs' ->
  detectSignal homedir join fs sessionId signal = true ->
  detectSignal homedir join fs' sessionId signal = true.
Proof.
  intros Hgrow. unfold detectSignal. rewrite pattern_of_marker.
  rewrite !scanPaths_spec. intros (path & content & Hin & Hl & Ht).
  destruct (Hgrow path content Hl) as (before & after & Hl').
  exists path, (before +:+ content +:+ after). split; [done|].
  split; [done|]. apply regexp_test_spec. apply regexp_test_spec in Ht.
  by apply contains_marker_grow.
Qed.

Lemma detectSignal_survives_growth_witness :
  detectSignal "/home/u" slash_join
    (transcript_with "step 1. PLANNING_COMPLETE. step 2") "s1"
    PLANNING_COMPLETE = true.
Proof.
  apply (detectSignal_survives_growth "/home/u" slash_join
           (transcript_with "PLANNING_COMPLETE")
           (transcript_with "step 1. PLANNING_COMPLETE. step 2") "s1"
           PLANNING_COMPLETE).
  - intros path content. unfold transcript_with.
    destruct (decide (path = s1_transcript)) as [->|Hne].
    + rewrite !lookup_singleton_eq. intros [= <-].
      by exists "step 1. ", ". step 2".
    + by rewrite lookup_singleton_ne.
  - vm_compute. reflexivity.
Defined.

Lemma matches_here_length pat text :
  matches_here pat text = true ->
  (String.length pat <= String.length text)%nat.
Proof.
  revert text. induction pat as [|p pat IH]; intros [|c text]; simpl;
    try done; [lia|].
  intros [_ H]%andb_true_iff. apply IH in H. lia.
Qed.

Lemma regexp_test_length pat text :
  regexp_test pat text = true ->
  (String.length pat <= String.length text)%nat.
Proof.
  induction text as [|c text IH]; simpl; rewrite orb_true_iff.
  - intros [H|]; [|done]. by apply matches_here_length in H.
  - intros [H|H]; [by apply matches_here_length in H|]. apply IH in H. lia.
Qed.

(** X3. A transcript shorter than the marker cannot signal: when every
    candidate that can be read holds fewer characters than the signal's name
    has (an empty file, for one), the signal is not detected. *)
Theorem detectSignal_short_transcripts (homedir : string)
    (join : list string -> string) (fs : gmap string FileEntry)
    (sessionId : string) (signal : AutopilotSignal) :
  (forall path content,
     path ∈ possiblePaths homedir join sessionId ->
     fs !! path = Some (Readable content) ->
     (String.length content < String.length (marker signal))%nat) ->
  detectSignal homedir join fs sessionId signal = false.
Proof.
  intros Hshort. apply not_true_is_false. unfold detectSignal.
  rewrite pattern_of_marker, scanPaths_spec.
  intros (path & content & Hin & Hl & Ht).
  apply regexp_test_length in Ht. specialize (Hshort path content Hin Hl).
  lia.
Qed.

Lemma detectSignal_short_transcripts_witness :
  detectSignal "/home/u" slash_join (transcript_with "COMPLETE") "s1"
    QA_COMPLETE = false.
Proof.
  apply (detectSignal_short_transcripts "/home/u" slash_join
           (transcript_with "COMPLETE") "s1" QA_COMPLETE).
  intros path content _. unfold transcript_with.
  destruct (decide (path = s1_transcript)) as [->|Hne].
  - rewrite lookup_singleton_eq. intros [= <-]. simpl. lia.
  - by rewrite lookup_singleton_ne.
Defined.

(** *** The first signal in table order *)

Lemma firstDetected_Some homedir join fs sessionId signals signal :
  firstDetected homedir join fs sessionId signals = Some signal <->
  exists i,
    signals !! i = Some signal /\
    detectSignal homedir join fs sessionId signal = true /\
    forall j earlier,
      (j < i)%nat -> signals !! j = Some earlier ->
      detectSignal homedir join fs sessionId earlier = false.
Proof.
  induction signals as [|s rest IH]; simpl.
  - split; [done|]. by intros (i & Hi & _).
  - destruct (detectSignal homedir join fs sessionId s) eqn:Hs.
    + split.
      * intros [= <-]. exists 0%nat. split; [done|]. split; [done|].
        intros j earlier Hj. lia.
      * intros (i & Hi & Hd & Hearlier). destruct i as [|i].
        { by injection Hi as ->. }
        specialize (Hearlier 0%nat s ltac:(lia) eq_refl). congruence.
    + rewrite IH. split.
      * intros (i & Hi & Hd & Hearlier). exists (S i).
        split; [done|]. split; [done|].
        intros [|j] earlier Hj Hl; simpl in Hl.
        { by injection Hl as <-. }
        apply (Hearlier j); [lia|done].
      * intros (i & Hi & Hd & Hearlier). destruct i as [|i].
        { injection Hi as ->. congruence. }
        exists i. split; [done|]. split; [done|].
        intros j earlier Hj Hl. apply (Hearlier (S j)); [lia|done].
Qed.

Lemma firstDetected_None homedir join fs sessionId signals :
  firstDetected homedir join fs sessionId signals = None <->
  forall signal, signal ∈ signals ->
    detectSignal homedir join fs sessionId signal = false.
Proof.
  induction signals as [|s rest IH]; simpl.
  - split; [|done]. intros _ signal Hin. by apply elem_of_nil in Hin.
  - destruct (detectSignal homedir join fs sessionId s) eqn:Hs.
    + split; [done|]. intros H.
      specialize (H s (list_elem_of_here _ _)). congruence.
    + rewrite IH. split.
      * intros H signal [->|Hin]%elem_of_cons; [done|by apply H].
      * intros H signal Hin. apply H. by apply elem_of_cons; right.
Qed.

(** X4. [detectAnySignal] answers with a signal exactly when that signal is
    detected and no signal standing before it in the table
    (EXPANSION_COMPLETE, PLANNING_COMPLETE, EXECUTION_COMPLETE, QA_COMPLETE,
    VALIDATION_COMPLETE, AUTOPILOT_COMPLETE, TRANSITION_TO_QA,
    TRANSITION_TO_VALIDATION, in this order) is: ties go to the earlier
    entry. *)
Theorem detectAnySignal_is_first_in_table (homedir : string)
    (join : list string -> string) (fs : gmap string FileEntry)
    (sessionId : string) (signal : AutopilotSignal) :
  signal_keys
  = [EXPANSION_COMPLETE; PLANNING_COMPLETE; EXECUTION_COMPLETE; QA_COMPLETE;
     VALIDATION_COMPLETE; AUTOPILOT_COMPLETE; TRANSITION_TO_QA;
     TRANSITION_TO_VALIDATION] /\
  (detectAnySignal homedir join fs sessionId = Some signal <->
   exists i,
     signal_keys !! i = Some signal /\
     detectSignal homedir join fs sessionId signal = true /\
     forall j earlier,
       (j < i)%nat -> signal_keys !! j = Some earlier ->
       detectSignal homedir join fs sessionId earlier = false).
Proof. split; [done|]. apply firstDetected_Some. Qed.

(** X5. [detectAnySignal] answers with nothing exactly when none of the
    eight signals is detected; with no readable candidate transcript that is
    always so. *)
Theorem detectAnySignal_none_iff (homedir : string)
    (join : list string -> string) (fs : gmap string FileEntry)
    (sessionId : string) :
  (detectAnySignal homedir join fs sessionId = None <->
   forall signal, detectSignal homedir join fs sessionId signal = false) /\
  ((forall path, path ∈ possiblePaths homedir join sessionId ->
      readFileSync fs path = None) ->
   detectAnySignal homedir join fs sessionId = None).
Proof.
  assert (Hiff : detectAnySignal homedir join fs sessionId = None <->
    forall signal, detectSignal homedir join fs sessionId signal = false).
  { unfold detectAnySignal. rewrite firstDetected_None. split.
    - intros H signal. apply H. apply list_elem_of_In.
      destruct signal; simpl; tauto.
    - intros H signal _. apply H. }
  split; [done|]. intros Hnone. apply Hiff. intros signal.
  apply not_true_is_false. unfold detectSignal.
  rewrite pattern_of_marker, scanPaths_spec.
  intros (path & content & Hin & Hl & _).
  specialize (Hnone path Hin). unfold readFileSync in Hnone.
  by rewrite Hl in Hnone.
Qed.

(** ** The two phase tables *)

(** X6. A phase has an expected signal exactly when it has a next phase,
    that is, when it is neither complete nor failed; distinct phases expect
    distinct signals; the expected signal is spelt as the upper-cased phase
    name followed by _COMPLETE; and AUTOPILOT_COMPLETE, TRANSITION_TO_QA and
    TRANSITION_TO_VALIDATION are expected by no phase. *)
Theorem expected_signal_table (p : AutopilotPhase) :
  (is_Some (getExpectedSignalForPhase p) <-> is_Some (getNextPhase p)) /\
  (is_Some (getNextPhase p) <-> p <> complete /\ p <> failed) /\
  (forall q,
     is_Some (getExpectedSignalForPhase p) ->
     getExpectedSignalForPhase p = getExpectedSignalForPhase q -> p = q) /\
  (forall signal,
     getExpectedSignalForPhase p = Some signal ->
     marker signal = toUpperCase (phase_name p) +:+ "_COMPLETE" /\
     signal <> AUTOPILOT_COMPLETE /\ signal <> TRANSITION_TO_QA /\
     signal <> TRANSITION_TO_VALIDATION).
Proof.
  split; [|split; [|split]].
  - destruct p; simpl; split; intros [? ?]; done.
  - destruct p; simpl; split; try (intros [? ?]; done); try done;
      intros [? ?]; done.
  - intros q [s Hs] Heq. destruct p, q; simpl in *; congruence.
  - intros signal Hs. destruct p; simpl in Hs; try done;
      injection Hs as <-; repeat split; done.
Qed.

(** X7. The successor table follows the canonical order and has no way
    back: a step raises the place of the phase by one and never yields
    expansion or failed; two phases with the same successor are the same;
    and from every phase but failed, following the table for the remaining
    places ends on complete, where the table ends. *)
Theorem successor_table_is_a_chain (p : AutopilotPhase) :
  (forall q, getNextPhase p = Some q ->
     phase_rank q = S (phase_rank p) /\ q <> expansion /\ q <> failed) /\
  (forall p', is_Some (getNextPhase p) ->
     getNextPhase p = getNextPhase p' -> p = p') /\
  (p <> failed ->
   Nat.iter (5 - phase_rank p) (fun o => o ≫= getNextPhase) (Some p)
   = Some complete) /\
  getNextPhase complete = None /\ getNextPhase failed = None.
Proof.
  split; [|split; [|split]].
  - intros q Hq. destruct p; simpl in Hq; try done; by injection Hq as <-.
  - intros p' [q Hq] Heq. destruct p, p'; simpl in *; congruence.
  - intros Hp. by destruct p.
  - done.
Qed.

(** ** What the continuation message holds *)

Lemma contains_marker_prefix pat text before :
  contains_marker pat text -> contains_marker pat (before +:+ text).
Proof.
  intros (b & mid & a & -> & Hup).
  exists (before +:+ b), mid, a. split; [|done].
  by rewrite !string_app_assoc.
Qed.

Lemma continuationPrompt_names_signals state phasePrompt signal :
  signal ∈ [EXPANSION_COMPLETE; PLANNING_COMPLETE; EXECUTION_COMPLETE;
            QA_COMPLETE; AUTOPILOT_COMPLETE] ->
  contains_marker (marker signal) (continuationPrompt state phasePrompt).
Proof.
  intros Hin. unfold continuationPrompt.
  do 8 apply contains_marker_prefix. apply regexp_test_spec.
  repeat (apply elem_of_cons in Hin as [->|Hin]; [by vm_compute|]).
  by apply elem_of_nil in Hin.
Qed.

(** X8. The continuation message names the signals it asks for, so it
    triggers them: when a candidate transcript of the session holds the
    message of any continuation result (with whatever text around it and
    whatever phase prompt inside it), the expected signal of a record in phase
    expansion, planning, execution or qa counts as detected for that
    session. *)
Theorem continuation_message_triggers_signal (host : Host)
    (fs : gmap string FileEntry) (said state : AutopilotState)
    (sid path before after : string) :
  sid <> "" ->
  path ∈ possiblePaths (homedir host) (join host) sid ->
  fs !! path
    = Some (Readable
              (before +:+ message (continuationResult host said) +:+ after)) ->
  phase state ∈ [expansion; planning; execution; qa] ->
  signalDetected host fs state (Some sid) = Some sid.
Proof.
  intros Hsid Hin Hfile Hphase.
  assert (Hdet : forall signal,
            signal ∈ [EXPANSION_COMPLETE; PLANNING_COMPLETE;
                      EXECUTION_COMPLETE; QA_COMPLETE; AUTOPILOT_COMPLETE] ->
            detectSignal (homedir host) (join host) fs sid signal = true).
  { intros signal Hs. unfold detectSignal.
    rewrite pattern_of_marker, scanPaths_spec.
    exists path, (before +:+ message (continuationResult host said) +:+ after).
    split; [done|]. split; [done|]. apply regexp_test_spec.
    apply contains_marker_grow. simpl.
    by apply continuationPrompt_names_signals. }
  unfold signalDetected, truthy.
  apply String.eqb_neq in Hsid. rewrite Hsid. simpl.
  repeat (apply elem_of_cons in Hphase as [->|Hphase];
          [simpl; rewrite Hdet; [done|apply list_elem_of_In; simpl; tauto]|]).
  by apply elem_of_nil in Hphase.
Qed.

Lemma continuation_message_triggers_signal_witness :
  signalDetected spec_host
    (transcript_with
       ("> " +:+ message (continuationResult spec_host
                            (ticked (sample_state planning 3))) +:+ "ok"))
    (sample_state planning 4) (Some "s1")
  = Some "s1".
Proof.
  apply (continuation_message_triggers_signal spec_host
           (transcript_with
              ("> " +:+ message (continuationResult spec_host
                                   (ticked (sample_state planning 3)))
               +:+ "ok"))
           (ticked (sample_state planning 3)) (sample_state planning 4)
           "s1" s1_transcript "> " "ok").
  - discriminate.
  - apply list_elem_of_here.
  - apply lookup_singleton_eq.
  - apply list_elem_of_In. simpl. tauto.
Defined.

(** ** Every way a check can end *)

Lemma check_outcomes (host : Host) (fs : gmap string FileEntry)
    (sessionId directory : option string) (w : World) :
  let dir := or_default directory (cwd host) in
  let out := checkAutopilot host fs sessionId directory w in
  (out = (None, w) /\
   (store w !! dir = None \/
    exists state, store w !! dir = Some state /\
      (active state = false \/ sessionMismatch state sessionId = true))) \/
  (exists state,
     store w !! dir = Some state /\ active state = true /\
     sessionMismatch state sessionId = false /\
     ((max_iterations state <= iteration state /\
       out = (Some (stoppedResult state),
              {| store := alter (set_phase failed) dir (store w);
                 journal := journal w ++ [MSetPhase dir failed] |})) \/
      (iteration state < max_iterations state /\ phase state = complete /\
       out = (Some completeResult, w)) \/
      (iteration state < max_iterations state /\ phase state = failed /\
       out = (Some failedResult, w)) \/
      (iteration state < max_iterations state /\ phase state = validation /\
       is_Some (signalDetected host fs state sessionId) /\
       out = (Some completeResult,
              {| store := (transitionToComplete host dir (store w)).2;
                 journal := journal w ++ [MComplete dir] |})) \/
      (iteration state < max_iterations state /\
       phase state <> complete /\ phase state <> failed /\
       exists s st' evs,
         out = (Some (continuationResult host (ticked s)),
                {| store := <[dir := ticked s]> st';
                   journal := journal w ++ evs ++ [MWrite dir] |})))).
Proof.
  intros dir out. subst out.
  destruct (store w !! dir) as [state|] eqn:Hload;
    [|left; split; [by apply check_absent|by left]].
  destruct (active state) eqn:Hactive;
    [|left; split; [by apply (check_inactive _ _ _ _ _ state)|]; right;
      exists state; split; [done|by left]].
  destruct (sessionMismatch state sessionId) eqn:Hbinding;
    [left; split; [by apply (check_mismatch _ _ _ _ _ state)|]; right;
     exists state; split; [done|by right]|].
  right. exists state. split; [done|]. split; [done|]. split; [done|].
  destruct (decide (max_iterations state <= iteration state)) as [Hmax|Hlt].
  { left. split; [done|]. by apply check_ceiling. }
  apply Z.nle_gt in Hlt. right.
  rewrite (check_below_ceiling host fs sessionId directory w state) by done.
  fold dir.
  case_bool_decide as Hc; [by left|]. right.
  case_bool_decide as Hf; [by left|]. right.
  destruct (signalDetected host fs state sessionId) as [sid|] eqn:Hsig.
  - destruct (phase state) eqn:Hp; try done.
    + right. split; [done|]. split; [done|]. split; [done|].
      rewrite (phaseCompleted_simple host state dir sid w planning)
        by (done || (left; done) || by rewrite Hp).
      by eexists _, _, [_].
    + right. split; [done|]. split; [done|]. split; [done|].
      rewrite (phaseCompleted_simple host state dir sid w execution)
        by (done || (right; done) || by rewrite Hp).
      by eexists _, _, [_].
    + right. split; [done|]. split; [done|]. split; [done|].
      rewrite (phaseCompleted_compound host state dir sid w
                 (MRalphToUltraQA dir)
                 (transitionRalphToUltraQA host dir sid)) by (left; done).
      destruct (transitionRalphToUltraQA host dir sid (store w))
        as [[[]] store']; simpl; [destruct (store' !! dir)|].
      * by eexists _, _, [_].
      * eexists _, _, [_]. simpl. by rewrite <- app_assoc.
      * by eexists _, _, [_].
    + right. split; [done|]. split; [done|]. split; [done|].
      rewrite (phaseCompleted_compound host state dir sid w
                 (MUltraQAToValidation dir)
                 (transitionUltraQAToValidation host dir)) by (right; done).
      destruct (transitionUltraQAToValidation host dir (store w))
        as [[[]] store']; simpl; [destruct (store' !! dir)|].
      * by eexists _, _, [_].
      * eexists _, _, [_]. simpl. by rewrite <- app_assoc.
      * by eexists _, _, [_].
    + left. split; [done|]. split; [done|]. split; [by eexists|].
      by rewrite (phaseCompleted_validation host state dir sid w).
  - right. split; [done|]. split; [done|]. split; [done|].
    by eexists _, _, [].
Qed.

(** X9. check returns absent in exactly three cases: the directory has no
    record, the record is inactive, or the record carries a session id and
    the caller gives a different one; and then the world, store and journal,
    is left as it was.  Every other call returns a result. *)
Theorem absent_exactly_when_guarded (host : Host)
    (fs : gmap string FileEntry) (sessionId directory : option string)
    (w : World) :
  ((checkAutopilot host fs sessionId directory w).1 = None <->
   store w !! or_default directory (cwd host) = None \/
   exists state,
     store w !! or_default directory (cwd host) = Some state /\
     (active state = false \/ sessionMismatch state sessionId = true)) /\
  ((checkAutopilot host fs sessionId directory w).1 = None ->
   (checkAutopilot host fs sessionId directory w).2 = w).
Proof.
  destruct (check_outcomes host fs sessionId directory w)
    as [[Hout Hwhy]|(state & Hload & Hactive & Hbinding & Hcases)].
  - rewrite Hout. simpl. split; [|done]. by split.
  - assert (Hsome : (checkAutopilot host fs sessionId directory w).1 <> None).
    { destruct Hcases as [[_ ->]|[(_ & _ & ->)|[(_ & _ & ->)|
        [(_ & _ & _ & ->)|(_ & _ & _ & s & st' & evs & ->)]]]]; done. }
    split; [|done]. split; [done|].
    intros [Hnone|(state' & Hload' & [Hi|Hm])]; congruence.
Qed.

(** X10. A continuation always tells what was just persisted: whenever check
    returns a result with shouldBlock true, the directory holds a record, the
    result is the continuation built from that record (its phase, its
    iteration, its max_iterations and its task counts are the result's), and
    the last mutation journalled is the write of that record. *)
Theorem continuation_reflects_persisted_record (host : Host)
    (fs : gmap string FileEntry) (sessionId directory : option string)
    (w w' : World) (result : AutopilotEnforcementResult) :
  checkAutopilot host fs sessionId directory w = (Some result, w') ->
  shouldBlock result = true ->
  exists persisted,
    store w' !! or_default directory (cwd host) = Some persisted /\
    result = continuationResult host persisted /\
    result_phase result = phase persisted /\
    metadata result
      = Some {| meta_iteration := iteration persisted;
                maxIterations := max_iterations persisted;
                tasksCompleted := tasks_completed (execution_block persisted);
                tasksTotal := tasks_total (execution_block persisted) |} /\
    exists earlier,
      journal w' = earlier ++ [MWrite (or_default directory (cwd host))].
Proof.
  intros Hcheck Hblock.
  destruct (check_outcomes host fs sessionId directory w)
    as [[Hout _]|(state & _ & _ & _ & Hcases)]; [congruence|].
  rewrite Hcheck in Hcases.
  destruct Hcases as [[_ Heq]|[(_ & _ & Heq)|[(_ & _ & Heq)|
    [(_ & _ & _ & Heq)|(_ & _ & _ & s & st' & evs & Heq)]]]];
    injection Heq as -> ->; try done.
  exists (ticked s). simpl. rewrite lookup_insert_eq.
  split; [done|]. split; [done|]. split; [done|]. split; [done|].
  exists (journal w ++ evs). by rewrite <- app_assoc.
Qed.

Lemma continuation_reflects_persisted_record_witness :
  let out :=
    checkAutopilot spec_host (transcript_with "EXPANSION_COMPLETE")
      (Some "s1") None (world_of (sample_state expansion 3)) in
  let result :=
    continuationResult spec_host
      (ticked (set_phase planning (sample_state expansion 3))) in
  exists persisted,
    store out.2 !! "/w" = Some persisted /\
    result = continuationResult spec_host persisted /\
    result_phase result = phase persisted /\
    metadata result
      = Some {| meta_iteration := iteration persisted;
                maxIterations := max_iterations persisted;
                tasksCompleted := tasks_completed (execution_block persisted);
                tasksTotal := tasks_total (execution_block persisted) |} /\
    exists earlier, journal out.2 = earlier ++ [MWrite "/w"].
Proof.
  intros out result.
  apply (continuation_reflects_persisted_record spec_host
           (transcript_with "EXPANSION_COMPLETE") (Some "s1") None
           (world_of (sample_state expansion 3)) out.2 result).
  - vm_compute. reflexivity.
  - reflexivity.
Defined.

(** ** Finalizing *)

(** X11. For an active record in phase validation that passes the binding
    check below the ceiling, with VALIDATION_COMPLETE detected: check calls
    the finalize operation and returns the complete notice with shouldBlock
    false, whatever that operation reports; the controller writes nothing
    itself, so the store is what the operation left and the one mutation
    journalled is that call. *)
Theorem validation_signal_finalizes (host : Host)
    (fs : gmap string FileEntry) (sessionId directory : option string)
    (w : World) (state : AutopilotState) (sid : string) :
  store w !! or_default directory (cwd host) = Some state ->
  active state = true ->
  sessionMismatch state sessionId = false ->
  iteration state < max_iterations state ->
  phase state = validation ->
  sessionId = Some sid ->
  sid <> "" ->
  detectSignal (homedir host) (join host) fs sid VALIDATION_COMPLETE = true ->
  checkAutopilot host fs sessionId directory w =
    (Some {| shouldBlock := false;
             message := "[AUTOPILOT COMPLETE] All phases finished successfully!";
             result_phase := complete; metadata := None |},
     {| store := (transitionToComplete host (or_default directory (cwd host))
                    (store w)).2;
        journal := journal w ++ [MComplete (or_default directory (cwd host))]
     |}).
Proof.
  intros Hload Hactive Hbinding Hlt Hp -> Hsid Hdet.
  assert (Hsig : signalDetected host fs state (Some sid) = Some sid).
  { unfold signalDetected, truthy. rewrite Hp. simpl. rewrite Hdet.
    apply String.eqb_neq in Hsid. by rewrite Hsid. }
  rewrite (check_below_ceiling host fs (Some sid) directory w state) by done.
  rewrite !bool_decide_eq_false_2 by congruence. rewrite Hsig.
  by rewrite (phaseCompleted_validation host state _ sid w).
Qed.

Lemma validation_signal_finalizes_witness :
  let out :=
    checkAutopilot failing_host (transcript_with "VALIDATION_COMPLETE")
      (Some "s1") None (world_of (sample_state validation 9)) in
  out = (Some completeResult,
         {| store := store (world_of (sample_state validation 9));
            journal := [MComplete "/w"] |}) /\
  persisted_phase out.2 "/w" = Some validation.
Proof.
  split.
  - apply (validation_signal_finalizes failing_host
             (transcript_with "VALIDATION_COMPLETE") (Some "s1") None
             (world_of (sample_state validation 9))
             (sample_state validation 9) "s1").
    + reflexivity.
    + reflexivity.
    + reflexivity.
    + simpl. lia.
    + reflexivity.
    + reflexivity.
    + discriminate.
    + vm_compute. reflexivity.
  - by vm_compute.
Defined.

(** ** A record that vanishes under a compound transition *)

(** X12. When the compound operation of execution or qa reports success but
    the reload finds no record for the directory, check does not return
    absent: it falls back to the record it loaded at the start, writes it back
    with the iteration counted up and returns the continuation of the current
    phase. *)
Theorem vanished_record_is_written_back (host : Host)
    (fs : gmap string FileEntry) (sessionId directory : option string)
    (w : World) (state : AutopilotState) (sid : string) :
  store w !! or_default directory (cwd host) = Some state ->
  active state = true ->
  sessionMismatch state sessionId = false ->
  iteration state < max_iterations state ->
  signalDetected host fs state sessionId = Some sid ->
  (phase state = execution /\
   success (transitionRalphToUltraQA host (or_default directory (cwd host))
              sid (store w)).1 = true /\
   (transitionRalphToUltraQA host (or_default directory (cwd host))
      sid (store w)).2 !! or_default directory (cwd host) = None) \/
  (phase state = qa /\
   success (transitionUltraQAToValidation host
              (or_default directory (cwd host)) (store w)).1 = true /\
   (transitionUltraQAToValidation host
      (or_default directory (cwd host)) (store w)).2
     !! or_default directory (cwd host) = None) ->
  let (result, w') := checkAutopilot host fs sessionId directory w in
  result = Some (continuationResult host (ticked state)) /\
  result_phase (continuationResult host (ticked state)) = phase state /\
  store w' !! or_default directory (cwd host) = Some (ticked state) /\
  mutations w w' = 2%nat.
Proof.
  intros Hload Hactive Hbinding Hlt Hsig Hgone.
  rewrite (check_below_ceiling host fs sessionId directory w state) by done.
  rewrite Hsig.
  destruct Hgone as [(Hp & Hok & Hnone)|(Hp & Hok & Hnone)].
  - rewrite !bool_decide_eq_false_2 by congruence.
    rewrite (phaseCompleted_compound host state _ sid w
               (MRalphToUltraQA (or_default directory (cwd host)))
               (transitionRalphToUltraQA host
                  (or_default directory (cwd host)) sid))
      by (left; done).
    destruct (transitionRalphToUltraQA host _ sid (store w))
      as [result store']. simpl in Hok, Hnone. rewrite Hok, Hnone.
    split; [done|]. split; [done|]. simpl.
    split; [apply lookup_insert_eq|].
    rewrite <- app_assoc. apply mutations_app.
  - rewrite !bool_decide_eq_false_2 by congruence.
    rewrite (phaseCompleted_compound host state _ sid w
               (MUltraQAToValidation (or_default directory (cwd host)))
               (transitionUltraQAToValidation host
                  (or_default directory (cwd host))))
      by (right; done).
    destruct (transitionUltraQAToValidation host _ (store w))
      as [result store']. simpl in Hok, Hnone. rewrite Hok, Hnone.
    split; [done|]. split; [done|]. simpl.
    split; [apply lookup_insert_eq|].
    rewrite <- app_assoc. apply mutations_app.
Qed.

Lemma vanished_record_is_written_back_witness :
  let w := world_of (sample_state qa 3) in
  let (result, w') :=
    checkAutopilot removing_host (transcript_with "QA_COMPLETE") (Some "s1")
      None w in
  result = Some (continuationResult removing_host (ticked (sample_state qa 3)))
  /\
  result_phase (continuationResult removing_host (ticked (sample_state qa 3)))
    = qa /\
  store w' !! "/w" = Some (ticked (sample_state qa 3)) /\
  mutations w w' = 2%nat.
Proof.
  apply (vanished_record_is_written_back removing_host
           (transcript_with "QA_COMPLETE") (Some "s1") None
           (world_of (sample_state qa 3)) (sample_state qa 3) "s1").
  - reflexivity.
  - reflexivity.
  - reflexivity.
  - simpl. lia.
  - vm_compute. reflexivity.
  - right. split; [reflexivity|]. split; [reflexivity|].
    apply lookup_delete_eq.
Defined.

(** ** The ceiling as a circuit breaker *)

Lemma quiet_calls_count_up (host : Host) (fs : gmap string FileEntry)
    (sessionId directory : option string) (n : nat) :
  forall (w : World) (state : AutopilotState),
    store w !! or_default directory (cwd host) = Some state ->
    active state = true ->
    sessionMismatch state sessionId = false ->
    phase state <> complete -> phase state <> failed ->
    signalDetected host fs state sessionId = None ->
    iteration state + Z.of_nat n <= max_iterations state ->
    store (checkRepeatedly host fs n sessionId directory w)
      !! or_default directory (cwd host)
    = Some (set_iteration (iteration state + Z.of_nat n) state).
Proof.
  induction n as [|n IH]; intros w state Hload Hactive Hbinding Hc Hf Hsig Hmax.
  - simpl. rewrite Z.add_0_r, Hload. by destruct state.
  - cbn [checkRepeatedly].
    rewrite (check_below_ceiling host fs sessionId directory w state)
      by (done || lia).
    rewrite !bool_decide_eq_false_2 by done. rewrite Hsig. cbn [snd].
    rewrite (IH _ (ticked state)); try done.
    + f_equal. unfold ticked, set_iteration. simpl. f_equal. lia.
    + simpl. apply lookup_insert_eq.
    + simpl. lia.
Qed.

(** X13. Without a signal the controller blocks only so many times: for an
    active record that passes the binding check, in a phase other than
    complete and failed and not above the ceiling, each of the next
    max_iterations - iteration calls returns a continuation (shouldBlock
    true), and the call after them returns the stop notice with shouldBlock
    false and phase failed. *)
Theorem quiet_session_is_stopped_at_ceiling (host : Host)
    (fs : gmap string FileEntry) (sessionId directory : option string)
    (w : World) (state : AutopilotState) :
  store w !! or_default directory (cwd host) = Some state ->
  active state = true ->
  sessionMismatch state sessionId = false ->
  phase state <> complete ->
  phase state <> failed ->
  signalDetected host fs state sessionId = None ->
  iteration state <= max_iterations state ->
  let headroom := Z.to_nat (max_iterations state - iteration state) in
  (forall k, (k < headroom)%nat ->
     (checkAutopilot host fs sessionId directory
        (checkRepeatedly host fs k sessionId directory w)).1
     = Some (continuationResult host
               (set_iteration (iteration state + Z.of_nat k + 1) state))) /\
  (checkAutopilot host fs sessionId directory
     (checkRepeatedly host fs headroom sessionId directory w)).1
  = Some {| shouldBlock := false; message := stoppedMessage state;
            result_phase := failed; metadata := None |}.
Proof.
  intros Hload Hactive Hbinding Hc Hf Hsig Hle headroom. split.
  - intros k Hk.
    rewrite (check_below_ceiling host fs sessionId directory _
               (set_iteration (iteration state + Z.of_nat k) state));
      try done.
    + rewrite !bool_decide_eq_false_2 by done.
      change (signalDetected host fs
                (set_iteration (iteration state + Z.of_nat k) state) sessionId)
        with (signalDetected host fs state sessionId).
      rewrite Hsig. done.
    + apply quiet_calls_count_up; try done. subst headroom. lia.
    + simpl. subst headroom. lia.
  - rewrite (check_ceiling host fs sessionId directory _
               (set_iteration (iteration state + Z.of_nat headroom) state));
      try done.
    + apply quiet_calls_count_up; try done. subst headroom. lia.
    + simpl. subst headroom. lia.
Qed.

Lemma quiet_session_is_stopped_at_ceiling_witness :
  let w := world_of (sample_state execution 48) in
  (forall k, (k < 2)%nat ->
     (checkAutopilot spec_host no_transcript (Some "s1") None
        (checkRepeatedly spec_host no_transcript k (Some "s1") None w)).1
     = Some (continuationResult spec_host
               (set_iteration (48 + Z.of_nat k + 1)
                  (sample_state execution 48)))) /\
  (checkAutopilot spec_host no_transcript (Some "s1") None
     (checkRepeatedly spec_host no_transcript 2 (Some "s1") None w)).1
  = Some {| shouldBlock := false;
            message := stoppedMessage (sample_state execution 48);
            result_phase := failed; metadata := None |}.
Proof.
  apply (quiet_session_is_stopped_at_ceiling spec_host no_transcript
           (Some "s1") None (world_of (sample_state execution 48))
           (sample_state execution 48)).
  - reflexivity.
  - reflexivity.
  - reflexivity.
  - discriminate.
  - discriminate.
  - vm_compute. reflexivity.
  - simpl. lia.
Defined.

(** ** What a check leaves alone *)

(** X14. A check reads and writes the record of its working directory only:
    provided the transition operations of the host keep to the directory
    they are called for, the record of every other directory is after the
    call what it was before. *)
Theorem other_directories_untouched (host : Host)
    (fs : gmap string FileEntry) (sessionId directory : option string)
    (w : World) (other : string) :
  transitions_local host ->
  other <> or_default directory (cwd host) ->
  store (checkAutopilot host fs sessionId directory w).2 !! other
  = store w !! other.
Proof.
  intros Hlocal Hother.
  destruct (Hlocal (or_default directory (cwd host)) other (store w) Hother)
    as (Hralph & Hqa & Hdone).
  destruct (store w !! or_default directory (cwd host)) as [state|] eqn:Hload;
    [|by rewrite check_absent].
  destruct (active state) eqn:Hactive;
    [|by rewrite (check_inactive _ _ _ _ _ state)].
  destruct (sessionMismatch state sessionId) eqn:Hbinding;
    [by rewrite (check_mismatch _ _ _ _ _ state)|].
  destruct (decide (max_iterations state <= iteration state)) as [Hmax|Hlt].
  { rewrite (check_ceiling host fs sessionId directory w state) by done.
    simpl. by rewrite lookup_alter_ne. }
  apply Z.nle_gt in Hlt.
  rewrite (check_below_ceiling host fs sessionId directory w state) by done.
  case_bool_decide as Hc; [done|]. case_bool_decide as Hf; [done|].
  destruct (signalDetected host fs state sessionId) as [sid|] eqn:Hsig;
    [|simpl; by rewrite lookup_insert_ne].
  destruct (phase state) eqn:Hp; try done.
  - rewrite (phaseCompleted_simple host state _ sid w planning)
      by (done || (left; done) || by rewrite Hp).
    simpl. by rewrite lookup_insert_ne, lookup_alter_ne.
  - rewrite (phaseCompleted_simple host state _ sid w execution)
      by (done || (right; done) || by rewrite Hp).
    simpl. by rewrite lookup_insert_ne, lookup_alter_ne.
  - rewrite (phaseCompleted_compound host state _ sid w
               (MRalphToUltraQA (or_default directory (cwd host)))
               (transitionRalphToUltraQA host
                  (or_default directory (cwd host)) sid)) by (left; done).
    specialize (Hralph sid).
    destruct (transitionRalphToUltraQA host _ sid (store w))
      as [[[]] store']; simpl in Hralph |- *;
      [destruct (store' !! or_default directory (cwd host))|]; simpl;
      by rewrite lookup_insert_ne.
  - rewrite (phaseCompleted_compound host state _ sid w
               (MUltraQAToValidation (or_default directory (cwd host)))
               (transitionUltraQAToValidation host
                  (or_default directory (cwd host)))) by (right; done).
    destruct (transitionUltraQAToValidation host _ (store w))
      as [[[]] store']; simpl in Hqa |- *;
      [destruct (store' !! or_default directory (cwd host))|]; simpl;
      by rewrite lookup_insert_ne.
  - by rewrite (phaseCompleted_validation host state _ sid w).
Qed.

Lemma spec_host_local : transitions_local spec_host.
Proof.
  assert (H : forall from to dir other st, other <> dir ->
            (specTransition from to dir st).2 !! other = st !! other).
  { intros from to dir other st Hne. unfold specTransition.
    destruct (st !! dir); [|done]. case_bool_decide; [|done].
    simpl. by rewrite lookup_insert_ne. }
  intros dir other st Hne. simpl. split; [intros _|split]; by apply H.
Qed.

Lemma other_directories_untouched_witness :
  let w := {| store := {[ "/w" := sample_state execution 3;
                          "/v" := sample_state planning 8 ]};
              journal := [] |} in
  store (checkAutopilot spec_host (transcript_with "EXECUTION_COMPLETE")
           (Some "s1") None w).2 !! "/v"
  = store w !! "/v".
Proof.
  apply (other_directories_untouched spec_host
           (transcript_with "EXECUTION_COMPLETE") (Some "s1") None
           {| store := {[ "/w" := sample_state execution 3;
                          "/v" := sample_state planning 8 ]};
              journal := [] |} "/v").
  - exact spec_host_local.
  - discriminate.
Defined.



(** ** Session health of the HUD *)

Lemma Qgtb_spec (a b : Q) : Qgtb a b = true <-> (b < a)%Q.
Proof.
  unfold Qgtb. rewrite negb_true_iff, <- not_true_iff_false, Qle_bool_iff.
  split; [apply Qnot_le_lt|apply Qlt_not_le].
Qed.

Lemma minutes_above (d m : Z) :
  (m <? d / 60000)%Z = true <-> (m + 1) * 60000 <= d.
Proof.
  rewrite Z.ltb_lt.
  pose proof (Z.div_mod d 60000 ltac:(lia)).
  pose proof (Z.mod_pos_bound d 60000 ltac:(lia)). lia.
Qed.

(** X16. Without a session start there is no verdict.  With one, the
    duration reported is the elapsed time in whole minutes, rounded down, the
    message count is 0, and the verdict is: critical exactly when 121 minutes
    or more have elapsed or the context is above 85 percent; warning exactly
    when it is not critical and 61 minutes or more have elapsed or the context
    is above 70 percent; healthy exactly when less than 61 minutes have
    elapsed and the context is at most 70 percent. *)
Theorem session_health_thresholds (now start : Z) (contextPercent : Q) :
  calculateSessionHealth now None contextPercent = None /\
  exists verdict,
    calculateSessionHealth now (Some start) contextPercent = Some verdict /\
    durationMinutes verdict = (now - start) / 60000 /\
    messageCount verdict = 0 /\
    (health verdict = critical <->
     121 * 60000 <= now - start \/ (inject_Z 85 < contextPercent)%Q) /\
    (health verdict = warning <->
     now - start < 121 * 60000 /\ (contextPercent <= inject_Z 85)%Q /\
     (61 * 60000 <= now - start \/ (inject_Z 70 < contextPercent)%Q)) /\
    (health verdict = healthy <->
     now - start < 61 * 60000 /\ (contextPercent <= inject_Z 70)%Q).
Proof.
  split; [done|]. eexists. split; [reflexivity|]. simpl.
  split; [done|]. split; [done|].
  pose proof (minutes_above (now - start) 120) as H120.
  pose proof (minutes_above (now - start) 60) as H60.
  pose proof (Qgtb_spec contextPercent (inject_Z 85)) as H85.
  pose proof (Qgtb_spec contextPercent (inject_Z 70)) as H70.
  change ((120 + 1) * 60000) with (121 * 60000) in H120.
  change ((60 + 1) * 60000) with (61 * 60000) in H60.
  assert (L85 : (contextPercent <= inject_Z 85)%Q
                <-> ~ (inject_Z 85 < contextPercent)%Q)
    by (split; [apply Qle_not_lt|apply Qnot_lt_le]).
  assert (L70 : (contextPercent <= inject_Z 70)%Q
                <-> ~ (inject_Z 70 < contextPercent)%Q)
    by (split; [apply Qle_not_lt|apply Qnot_lt_le]).
  assert (Z120 : now - start < 121 * 60000 <-> ~ 121 * 60000 <= now - start)
    by lia.
  assert (Z60 : now - start < 61 * 60000 <-> ~ 61 * 60000 <= now - start)
    by lia.
  assert (Hlong : 121 * 60000 <= now - start -> 61 * 60000 <= now - start)
    by lia.
  assert (Hfull : (inject_Z 85 < contextPercent)%Q ->
                  (inject_Z 70 < contextPercent)%Q).
  { apply Qlt_trans. reflexivity. }
  rewrite L85, L70, Z120, Z60. clear L85 L70 Z120 Z60.
  destruct (120 <? (now - start) / 60000)%Z;
    destruct (Qgtb contextPercent (inject_Z 85));
    destruct (60 <? (now - start) / 60000)%Z;
    destruct (Qgtb contextPercent (inject_Z 70)); simpl;
    intuition congruence.
Qed.

(** X17. The verdict never improves with time or load: of two sessions, the
    one with at least as much elapsed time and at least as high a context
    percentage has at least as many minutes reported and a verdict at least
    as grave (healthy, then warning, then critical). *)
Theorem session_health_monotone (now start now' start' : Z)
    (contextPercent contextPercent' : Q) (verdict verdict' : SessionHealth) :
  now - start <= now' - start' ->
  (contextPercent <= contextPercent')%Q ->
  calculateSessionHealth now (Some start) contextPercent = Some verdict ->
  calculateSessionHealth now' (Some start') contextPercent'
    = Some verdict' ->
  durationMinutes verdict <= durationMinutes verdict' /\
  (severity (health verdict) <= severity (health verdict'))%nat.
Proof.
  intros Htime Hload Hv Hv'.
  destruct (session_health_thresholds now start contextPercent)
    as (_ & v & Hcalc & Hd & _ & Hcrit & Hwarn & Hok).
  destruct (session_health_thresholds now' start' contextPercent')
    as (_ & v' & Hcalc' & Hd' & _ & Hcrit' & Hwarn' & Hok').
  rewrite Hv in Hcalc. injection Hcalc as <-.
  rewrite Hv' in Hcalc'. injection Hcalc' as <-.
  split.
  - rewrite Hd, Hd'. by apply Z.div_le_mono.
  - destruct (health verdict) eqn:Hh; [simpl; lia| |].
    + destruct Hwarn as [Hwarn _]. specialize (Hwarn eq_refl).
      destruct Hwarn as (_ & _ & Hwhy).
      destruct (health verdict') eqn:Hh'; [|simpl; lia|simpl; lia].
      destruct Hok' as [Hok' _]. specialize (Hok' eq_refl).
      destruct Hok' as [Ht Hp]. exfalso. destruct Hwhy as [Hlong|Hfull].
      * lia.
      * apply (Qlt_not_le _ _ Hfull). by apply (Qle_trans _ contextPercent').
    + destruct Hcrit as [Hcrit _]. specialize (Hcrit eq_refl).
      assert (Hcritical : health verdict' = critical).
      { apply Hcrit'. destruct Hcrit as [Hlong|Hfull]; [left; lia|right].
        by apply (Qlt_le_trans _ contextPercent). }
      rewrite Hcritical. simpl. lia.
Qed.

Lemma session_health_monotone_witness :
  durationMinutes {| durationMinutes := 59; messageCount := 0;
                     health := healthy |}
  <= durationMinutes {| durationMinutes := 61; messageCount := 0;
                        health := warning |} /\
  (severity healthy <= severity warning)%nat.
Proof.
  apply (session_health_monotone (59 * 60000 + 59999) 0 (61 * 60000) 0
           (inject_Z 70) (inject_Z 70)
           {| durationMinutes := 59; messageCount := 0; health := healthy |}
           {| durationMinutes := 61; messageCount := 0; health := warning |}).
  - lia.
  - apply Qle_refl.
  - reflexivity.
  - reflexivity.
Defined.

(** ** The line the HUD prints *)

(** X18. Formatting the rendered line keeps its length and every character
    but the space in its place, turns each space into a no-break space, and
    leaves no space behind; formatting twice is formatting once. *)
Theorem formattedOutput_replaces_every_space (output : list Z) :
  List.length (formattedOutput output) = List.length output /\
  (forall i c, output !! i = Some c ->
     formattedOutput output !! i = Some (if (c =? 32)%Z then 160 else c)) /\
  (32 ∉ formattedOutput output) /\
  formattedOutput (formattedOutput output) = formattedOutput output.
Proof.
  unfold formattedOutput. split; [by rewrite length_fmap|]. split; [|split].
  - intros i c Hi. by rewrite list_lookup_fmap, Hi.
  - intros Hin. apply list_elem_of_fmap in Hin as (c & Hc & _).
    destruct (c =? 32)%Z eqn:E; [done|]. apply Z.eqb_neq in E. congruence.
  - rewrite <- list_fmap_compose. apply list_fmap_ext. intros _ c _. simpl.
    destruct (c =? 32)%Z eqn:E; [done|]. by rewrite E.
Qed.

(** ** One phase per call *)

(** X19. A call advances one phase at most, even when the transcript already
    holds the signal of the next phase: for an active record in phase
    expansion with both EXPANSION_COMPLETE and PLANNING_COMPLETE detected and
    room for two more iterations, the first call returns the continuation of
    planning and the second the continuation of execution; the iteration
    count runs on across both phase changes, and the record ends in phase
    execution with the iteration two higher. *)
Theorem two_calls_advance_two_phases (host : Host)
    (fs : gmap string FileEntry) (directory : option string) (w : World)
    (state : AutopilotState) (sid : string) :
  store w !! or_default directory (cwd host) = Some state ->
  active state = true ->
  sessionMismatch state (Some sid) = false ->
  sid <> "" ->
  phase state = expansion ->
  iteration state + 1 < max_iterations state ->
  detectSignal (homedir host) (join host) fs sid EXPANSION_COMPLETE = true ->
  detectSignal (homedir host) (join host) fs sid PLANNING_COMPLETE = true ->
  let first := checkAutopilot host fs (Some sid) directory w in
  let second := checkAutopilot host fs (Some sid) directory first.2 in
  first.1
  = Some (continuationResult host
            (set_iteration (iteration state + 1) (set_phase planning state))) /\
  second.1
  = Some (continuationResult host
            (set_iteration (iteration state + 2)
               (set_phase execution state))) /\
  store second.2 !! or_default directory (cwd host)
  = Some (set_iteration (iteration state + 2) (set_phase execution state)) /\
  mutations w second.2 = 4%nat.
Proof.
  intros Hload Hactive Hbinding Hsid Hp Hlt Hexp Hplan first second.
  apply String.eqb_neq in Hsid.
  assert (Hsig : signalDetected host fs state (Some sid) = Some sid).
  { unfold signalDetected, truthy. rewrite Hp. simpl. by rewrite Hsid, Hexp. }
  assert (Hfirst : first =
    (Some (continuationResult host (ticked (set_phase planning state))),
     {| store := <[or_default directory (cwd host)
                   := ticked (set_phase planning state)]>
                   (alter (set_phase planning)
                      (or_default directory (cwd host)) (store w));
        journal := journal w
                   ++ [MSetPhase (or_default directory (cwd host)) planning;
                       MWrite (or_default directory (cwd host))] |})).
  { subst first.
    rewrite (check_below_ceiling host fs (Some sid) directory w state)
      by (done || lia).
    rewrite !bool_decide_eq_false_2 by congruence. rewrite Hsig.
    by rewrite (phaseCompleted_simple host state _ sid w planning)
      by (done || (left; done) || by rewrite Hp). }
  subst second. rewrite Hfirst. cbn [fst snd].
  split; [done|].
  set (s2 := ticked (set_phase planning state)).
  assert (Hp2 : phase s2 = planning) by done.
  assert (Hsig2 : signalDetected host fs s2 (Some sid) = Some sid).
  { unfold signalDetected, truthy. rewrite Hp2. simpl. by rewrite Hsid, Hplan. }
  rewrite (check_below_ceiling host fs (Some sid) directory _ s2);
    [|simpl; apply lookup_insert_eq|done|done|simpl; lia].
  rewrite !bool_decide_eq_false_2 by (rewrite Hp2; done).
  rewrite Hsig2.
  rewrite (phaseCompleted_simple host s2 _ sid _ execution);
    [|simpl; apply lookup_insert_eq|right; done|by rewrite Hp2].
  cbn [fst snd store journal].
  split; [|split].
  - f_equal. f_equal. unfold ticked, set_iteration, set_phase. simpl.
    f_equal. lia.
  - rewrite lookup_insert_eq. f_equal.
    unfold ticked, set_iteration, set_phase. simpl. f_equal. lia.
  - rewrite <- app_assoc. apply mutations_app.
Qed.

Lemma two_calls_advance_two_phases_witness :
  let fs := transcript_with "EXPANSION_COMPLETE PLANNING_COMPLETE" in
  let state := sample_state expansion 3 in
  let first := checkAutopilot spec_host fs (Some "s1") None (world_of state) in
  let second := checkAutopilot spec_host fs (Some "s1") None first.2 in
  first.1
  = Some (continuationResult spec_host
            (set_iteration (3 + 1) (set_phase planning state))) /\
  second.1
  = Some (continuationResult spec_host
            (set_iteration (3 + 2) (set_phase execution state))) /\
  store second.2 !! "/w"
  = Some (set_iteration (3 + 2) (set_phase execution state)) /\
  mutations (world_of state) second.2 = 4%nat.
Proof.
  intros fs state.
  apply (two_calls_advance_two_phases spec_host fs None (world_of state)
           state "s1").
  - reflexivity.
  - reflexivity.
  - reflexivity.
  - discriminate.
  - reflexivity.
  - simpl. lia.
  - vm_compute. reflexivity.
  - vm_compute. reflexivity.
Defined.
